(** * grafana-finnhub: the DataSource of src/DataSource.ts

    A shallow embedding of the Finnhub data source plugin: the request
    builder [constructQuery], the response normalizers [tableResponse] and
    [tsResponse], the two fetchers [get] and [freeTextQuery], the
    connectivity probe [testDatasource], and the top-level [query] with its
    REST path (promises) and its streaming path (observables over
    WebSockets).

    Conventions.
    - JavaScript values of type [any] are [jsval]; numbers are IEEE binary64
      (the kernel's primitive floats), so [time * 1000] is the very
      multiplication the program performs.
    - A computation that can throw a [TypeError] returns an [option]
      ([None] is the throw); a promise is its settled [Outcome].
    - The mutable instance ([this.sockets]), the WebSocket objects and the
      console are a [World] threaded through the stateful code.
    - Objects have no prototype chain (an object is the ordered list of its
      own enumerable properties); the case mapping of text outside ASCII is
      the runtime's. *)

From Stdlib Require Import Floats.PrimFloat Numbers.Cyclic.Int63.Uint63.
From Stdlib Require Import ZArith Ascii String DecimalString.
From stdpp Require Import base option list.

Local Open Scope string_scope.
Local Open Scope list_scope.

(** ** JavaScript values *)

#[local] Set Warnings "-register-all,-inexact-float".

Inductive jsval : Type :=
| JUndefined
| JNull
| JBool (b : bool)
| JNum (x : float)
| JStr (s : string)
| JArr (elems : list jsval)
| JObj (props : list (string * jsval)).

(** An integer as a JavaScript number (exact below 2^53). *)
Definition num_of_Z (z : Z) : float :=
  if (z <? 0)%Z then PrimFloat.opp (PrimFloat.of_uint63 (Uint63.of_Z (- z)))
  else PrimFloat.of_uint63 (Uint63.of_Z z).

Definition num_of_nat (n : nat) : float := num_of_Z (Z.of_nat n).

(** The canonical decimal spelling of an array index, as property key. *)
Definition index_key (i : nat) : string := NilZero.string_of_uint (Nat.to_uint i).

(** [String(i)] as the i-th character of a string, if any. *)
Definition char_at (s : string) (i : nat) : option string :=
  match String.get i s with
  | Some c => Some (String c EmptyString)
  | None => None
  end.

Fixpoint assoc {A : Type} (k : string) (l : list (string * A)) : option A :=
  match l with
  | [] => None
  | (k', v) :: rest => if String.eqb k k' then Some v else assoc k rest
  end.

Definition or_undefined (o : option jsval) : jsval :=
  match o with Some v => v | None => JUndefined end.

(** The index an array-index key denotes among the first [n] indices. *)
Definition key_index (k : string) (n : nat) : option nat :=
  List.find (fun i => String.eqb (index_key i) k) (seq 0 n).

(** [v[k]] for a string key: reading a property of [undefined] or [null]
    throws, a missing property reads as [undefined]. *)
Definition get_prop (v : jsval) (k : string) : option jsval :=
  match v with
  | JUndefined | JNull => None
  | JBool _ | JNum _ => Some JUndefined
  | JStr s =>
      if String.eqb k "length" then Some (JNum (num_of_nat (String.length s)))
      else Some (or_undefined (i ← key_index k (String.length s); JStr <$> char_at s i))
  | JArr l =>
      if String.eqb k "length" then Some (JNum (num_of_nat (length l)))
      else Some (or_undefined (i ← key_index k (length l); l !! i))
  | JObj props => Some (or_undefined (assoc k props))
  end.

(** [v[i]] for a numeric index. *)
Definition get_index (v : jsval) (i : nat) : option jsval :=
  match v with
  | JUndefined | JNull => None
  | JBool _ | JNum _ => Some JUndefined
  | JStr s => Some (or_undefined (JStr <$> char_at s i))
  | JArr l => Some (or_undefined (l !! i))
  | JObj props => Some (or_undefined (assoc (index_key i) props))
  end.

(** [Object.entries(v)]: own enumerable properties in enumeration order. *)
Definition Object_entries (v : jsval) : option (list (string * jsval)) :=
  match v with
  | JUndefined | JNull => None
  | JBool _ | JNum _ => Some []
  | JStr s => Some (imap (fun i c => (index_key i, JStr (String c EmptyString))) (list_ascii_of_string s))
  | JArr l => Some (imap (fun i x => (index_key i, x)) l)
  | JObj props => Some props
  end.

Definition Object_keys (v : jsval) : option (list string) :=
  map fst <$> Object_entries v.

Definition Object_values (v : jsval) : option (list jsval) :=
  map snd <$> Object_entries v.

(** Truthiness, as [if (v)] tests it. *)
Definition truthy (v : jsval) : bool :=
  match v with
  | JUndefined | JNull => false
  | JBool b => b
  | JNum x => negb (PrimFloat.is_nan x || PrimFloat.is_zero x)
  | JStr s => negb (String.eqb s "")
  | JArr _ | JObj _ => true
  end.

(** [v === n] for a number literal [n]. *)
Definition strict_eq_num (v : jsval) (n : float) : bool :=
  match v with
  | JNum x => PrimFloat.eqb x n
  | _ => false
  end.

(** [v === s] for a string literal [s], on a possibly undefined string; a
    [switch] compares its cases in order with it. *)
Definition strict_eq_str (v : option string) (s : string) : bool :=
  match v with Some x => String.eqb x s | None => false end.

(** ** The JavaScript runtime and the imports the file does not contain *)

(** Built-ins whose full definition lies outside the program: the [Date]
    constructor followed by [getTime()] (NaN for an invalid date),
    [ToNumber] on strings and objects, [JSON.parse] ([None] when it
    throws a [SyntaxError]), and [String.prototype.toUpperCase] on text
    that is not ASCII (the Unicode case mapping). *)
Class Runtime := {
  Date_getTime : jsval -> float;
  ToNumber_object : jsval -> float;
  JSON_parse : string -> option jsval;
  toUpperCase_unicode : string -> string
}.

(** [ToNumber], as the operand conversion of [*]. *)
Definition ToNumber `{Runtime} (v : jsval) : float :=
  match v with
  | JUndefined => PrimFloat.nan
  | JNull => PrimFloat.zero
  | JBool b => if b then PrimFloat.one else PrimFloat.zero
  | JNum x => x
  | JStr _ | JArr _ | JObj _ => ToNumber_object v
  end.

(** ** Strings: [String.prototype.toUpperCase] *)

(** A string is ASCII text when every character is below 128; a string with
    another character stands for text outside ASCII. *)
Definition is_ascii_char (c : ascii) : bool := Nat.ltb (nat_of_ascii c) 128.

Fixpoint is_ascii (s : string) : bool :=
  match s with
  | EmptyString => true
  | String c rest => is_ascii_char c && is_ascii rest
  end.

Definition upper_ascii (c : ascii) : ascii :=
  let n := nat_of_ascii c in
  if Nat.leb 97 n && Nat.leb n 122 then ascii_of_nat (n - 32) else c.

(** The case mapping on ASCII text: the letters a to z become A to Z. *)
Fixpoint toUpperCase_ascii (s : string) : string :=
  match s with
  | EmptyString => EmptyString
  | String c rest => String (upper_ascii c) (toUpperCase_ascii rest)
  end.

(** [s.toUpperCase()]: on ASCII text the mapping above; on any other text
    the runtime's Unicode mapping, which may also change the length. *)
Definition toUpperCase `{Runtime} (s : string) : string :=
  if is_ascii s then toUpperCase_ascii s else toUpperCase_unicode s.

(** ** ./types: the parts of the missing module the data source uses *)

Module SelectableValue.
Record t := { value : option string; label : option string }.
End SelectableValue.

(** [MyQuery & CandleQuery]: a target. [refId] is Grafana's correlation
    identifier; every other field is optional (an absent property is [None]). *)
Module MyQuery.
Record t := {
  refId : string;
  symbol : option string;
  type : option SelectableValue.t;
  resolution : option jsval;
  metric : option SelectableValue.t;
  queryText : option string
}.
End MyQuery.

Inductive TargetType := Table | Timeseries.

Definition TargetType_eqb (a b : TargetType) : bool :=
  match a, b with
  | Table, Table | Timeseries, Timeseries => true
  | _, _ => false
  end.

(** A moment: milliseconds since the epoch; [unix()] is
    [Math.floor(valueOf() / 1000)]. *)
Module DateTime.
Record t := { valueOf : Z }.
Definition unix (d : t) : Z := (valueOf d / 1000)%Z.
End DateTime.

Module TimeRange.
Record t := { from : DateTime.t; to : DateTime.t }.
End TimeRange.

(** What the program stores under the name [refId] in requests, frames and
    emissions: Grafana's contract is the string; the object literal
    [{ target }] is the other value the program builds. *)
Inductive RefIdValue :=
| RefIdString (s : string)
| RefIdObject (target : MyQuery.t).

(** The object [constructQuery] returns; a property the object literal does
    not list is [None]. *)
Module QueryParams.
Record t := {
  symbol : option string;
  resolution : option jsval;
  from : option Z;
  to : option Z;
  metric : option string;
  refId : option RefIdValue
}.
(** The default argument [{}] of [get]. *)
Definition empty : t :=
  {| symbol := None; resolution := None; from := None; to := None;
     metric := None; refId := None |}.
End QueryParams.

(** ** constructQuery (DataSource.ts 35-51) *)

Definition constructQuery `{Runtime} (target : MyQuery.t) (range : TimeRange.t)
  : QueryParams.t :=
  let symbol := toUpperCase <$> MyQuery.symbol target in
  let refId := Some (RefIdObject target) in
  let kind := MyQuery.type target ≫= SelectableValue.value in
  if strict_eq_str kind "candle" then
    let resolution := MyQuery.resolution target in
    {| QueryParams.symbol := symbol;
       QueryParams.resolution := resolution;
       QueryParams.from := Some (DateTime.unix (TimeRange.from range));
       QueryParams.to := Some (DateTime.unix (TimeRange.to range));
       QueryParams.metric := None;
       QueryParams.refId := refId |}
  else if strict_eq_str kind "metric" then
    {| QueryParams.symbol := symbol;
       QueryParams.resolution := None;
       QueryParams.from := None;
       QueryParams.to := None;
       QueryParams.metric := MyQuery.metric target ≫= SelectableValue.value;
       QueryParams.refId := refId |}
  else
    {| QueryParams.symbol := symbol;
       QueryParams.resolution := None;
       QueryParams.from := None;
       QueryParams.to := None;
       QueryParams.metric := None;
       QueryParams.refId := refId |}.

(** ** Arrays and tables *)

(** [Array.prototype.map] with a callback that may throw; calling [map] on
    anything but an array throws. *)
Fixpoint imapM_from {A B : Type} (f : nat -> A -> option B) (i : nat) (l : list A)
  : option (list B) :=
  match l with
  | [] => Some []
  | x :: rest =>
      y ← f i x;
      ys ← imapM_from f (S i) rest;
      Some (y :: ys)
  end.

Definition Array_map {B : Type} (v : jsval) (f : jsval -> nat -> option B)
  : option (list B) :=
  match v with
  | JArr l => imapM_from (fun i x => f x i) 0 l
  | _ => None
  end.

Definition includes (l : list string) (k : string) : bool :=
  existsb (String.eqb k) l.

(** ** tableResponse (DataSource.ts 129-140) *)

Module Column.
Record t := { text : string; type : string }.
End Column.

Inductive TableResponse :=
| EmptyObject
| TableOf (columns : list Column.t) (rows : list (list jsval)).

Definition typeof_is_string (v : jsval) : bool :=
  match v with JStr _ => true | _ => false end.

Definition tableResponse (data : list jsval) : option TableResponse :=
  match data with
  | [] => Some EmptyObject
  | d0 :: _ =>
      entries ← Object_entries d0;
      let columns :=
        map (fun '(key, val) =>
               {| Column.text := key;
                  Column.type := if typeof_is_string val then "string" else "number" |})
            entries in
      rows ← mapM Object_values data;
      Some (TableOf columns rows)
  end.

(** ** tsResponse (DataSource.ts 143-172) *)

Module TimeSeries.
Record t := { target : string; datapoints : list (jsval * float) }.
End TimeSeries.

Definition tsResponse `{Runtime} (data : jsval) (type : option string)
  : option (list TimeSeries.t) :=
  if strict_eq_str type "earnings" then
    let excludedFields := ["period"; "symbol"] in
    d0 ← get_index data 0;
    ks ← Object_keys d0;
    let keys := List.filter (fun key => negb (includes excludedFields key)) ks in
    mapM (fun key =>
            dps ← Array_map data (fun dp _ =>
                     v ← get_prop dp key;
                     period ← get_prop dp "period";
                     Some (v, Date_getTime period));
            Some {| TimeSeries.target := key; TimeSeries.datapoints := dps |})
         keys
  else if strict_eq_str type "quote" then
    c ← get_prop data "c";
    t ← get_prop data "t";
    Some [ {| TimeSeries.target := "current price";
              TimeSeries.datapoints := [ (c, PrimFloat.mul (ToNumber t) 1000) ] |} ]
  else if strict_eq_str type "candle" then
    let fields := ["open price"; "close price"] in
    mapM (fun field =>
            t ← get_prop data "t";
            dps ← Array_map t (fun time i =>
                     col ← get_prop data (String.substring 0 1 field);
                     v ← get_index col i;
                     Some (v, PrimFloat.mul (ToNumber time) 1000));
            Some {| TimeSeries.target := field; TimeSeries.datapoints := dps |})
         fields
  else Some [].

(** ** ./types and ./utils: imports whose source is not in the repository *)

(** [defaultQuery]. The program reads [type.value] of the merged target
    without a guard, so the defaults carry a [type]. *)
Module Defaults.
Record t := {
  symbol : option string;
  type : SelectableValue.t;
  resolution : option jsval;
  metric : option SelectableValue.t;
  queryText : option string
}.
End Defaults.

Class Imports := {
  defaultQuery : Defaults.t;
  getTargetType : SelectableValue.t -> TargetType;
  ensureArray : jsval -> list jsval
}.

Definition or_else {A : Type} (o d : option A) : option A :=
  match o with Some a => Some a | None => d end.

(** The merged [type] of [{ ...defaultQuery, ...target }]. *)
Definition spread_type (d : Defaults.t) (target : MyQuery.t) : SelectableValue.t :=
  match MyQuery.type target with Some ty => ty | None => Defaults.type d end.

(** [{ ...defaultQuery, ...target }]: a property of the target wins. *)
Definition spread (d : Defaults.t) (target : MyQuery.t) : MyQuery.t :=
  {| MyQuery.refId := MyQuery.refId target;
     MyQuery.symbol := or_else (MyQuery.symbol target) (Defaults.symbol d);
     MyQuery.type := Some (spread_type d target);
     MyQuery.resolution := or_else (MyQuery.resolution target) (Defaults.resolution d);
     MyQuery.metric := or_else (MyQuery.metric target) (Defaults.metric d);
     MyQuery.queryText := or_else (MyQuery.queryText target) (Defaults.queryText d) |}.

(** ** Exceptions, promises, the world *)

Inductive Thrown :=
| TypeError
| SyntaxError
| InvalidAccessError
| Reason (e : jsval).

Inductive Outcome (A : Type) :=
| Fulfilled (a : A)
| Rejected (e : Thrown).
Arguments Fulfilled {A} a.
Arguments Rejected {A} e.

(** A pure computation that throws only [TypeError]s, as an outcome. *)
Definition of_option {A : Type} (o : option A) : Outcome A :=
  match o with Some a => Fulfilled a | None => Rejected TypeError end.

Definition WebSocket := nat.

(** [{ ...params, token }], the second argument of [backendSrv.get]. *)
Module HttpParams.
Record t := { params : QueryParams.t; token : string }.
End HttpParams.

Module Frame.
(** A [CircularDataFrame] ([append: 'tail']): [values] holds the rows,
    oldest first, at most [capacity] of them. *)
Record t := {
  refId : option RefIdValue;
  fields : list (string * string);
  capacity : nat;
  values : list (jsval * jsval)
}.
End Frame.

(** What [subscriber.next] receives. *)
Module Emission.
Record t := { data : list Frame.t; key : option RefIdValue }.
End Emission.

(** The observable effects, in program order. *)
Inductive Event :=
| SocketNew (socket : WebSocket) (url : string)
| SocketClose (socket : WebSocket) (code : Z)
| SocketSend (socket : WebSocket) (message : jsval)
| HttpGet (url : string) (params : option HttpParams.t)
| ConsoleError (message : string) (e : Thrown)
| ConsoleLog (message : string) (e : jsval)
| SubscriberNext (socket : WebSocket) (emission : Emission.t)
| SubscriberComplete (socket : WebSocket).

(** The fields of the [DataSource] instance. *)
Module DataSource.
Record t := {
  dataSourceName : string;
  token : string;
  baseUrl : string;
  websocketUrl : string;
  sockets : list WebSocket
}.

(** The constructor (DataSource.ts 25-33). *)
Definition new (name apiToken : string) : t :=
  {| dataSourceName := name;
     token := apiToken;
     baseUrl := "https://finnhub.io/api/v1";
     websocketUrl := "wss://ws.finnhub.io?token=" ++ apiToken;
     sockets := [] |}.

Definition push (socket : WebSocket) (this : t) : t :=
  {| dataSourceName := dataSourceName this;
     token := token this;
     baseUrl := baseUrl this;
     websocketUrl := websocketUrl this;
     sockets := sockets this ++ [socket] |}.
End DataSource.

(** [this], the identity the next [new WebSocket] gets, and the effects so far. *)
Record World := {
  this : DataSource.t;
  fresh : WebSocket;
  trace : list Event
}.

Definition State (A : Type) : Type := World -> A * World.

Definition ret {A : Type} (a : A) : State A := fun w => (a, w).

Definition bind {A B : Type} (c : State A) (k : A -> State B) : State B :=
  fun w => let (a, w') := c w in k a w'.

Notation "x <~ c ;; k" := (bind c (fun x => k))
  (at level 100, c at next level, right associativity).
Notation "c ;;; k" := (bind c (fun _ => k))
  (at level 100, right associativity).

Definition emit (e : Event) : State unit :=
  fun w => (tt, {| this := this w; fresh := fresh w; trace := trace w ++ [e] |}).

Definition getThis : State DataSource.t := fun w => (this w, w).

(** [l.forEach(f)] with a callback that may throw: the first throw ends
    the loop and is the loop's. *)
Fixpoint forEach {A : Type} (l : list A) (f : A -> State (option Thrown))
  : State (option Thrown) :=
  match l with
  | [] => ret None
  | x :: rest =>
      thrown <~ f x ;;
      match thrown with
      | Some e => ret (Some e)
      | None => forEach rest f
      end
  end.

Fixpoint mapState {A B : Type} (f : A -> State B) (l : list A) : State (list B) :=
  match l with
  | [] => ret []
  | x :: rest => y <~ f x ;; ys <~ mapState f rest ;; ret (y :: ys)
  end.

(** A promise is the computation that settles it: run later, it performs
    the effects of its handlers and yields the outcome. *)
Definition Promise (A : Type) : Type := State (Outcome A).

(** [p.then(cb)] for a callback without effects that may throw. *)
Definition Promise_then {A B : Type} (p : Promise A) (cb : A -> Outcome B) : Promise B :=
  o <~ p ;;
  ret (match o with
       | Fulfilled a => cb a
       | Rejected e => Rejected e
       end).

(** [Promise.all]: the promises settle in list order; the result rejects
    with the first rejection, and fulfils with all values otherwise. *)
Fixpoint Promise_all {A : Type} (ps : list (Promise A)) : Promise (list A) :=
  match ps with
  | [] => ret (Fulfilled [])
  | p :: rest =>
      o <~ p ;;
      os <~ Promise_all rest ;;
      ret (match o, os with
           | Rejected e, _ => Rejected e
           | Fulfilled _, Rejected e => Rejected e
           | Fulfilled a, Fulfilled l => Fulfilled (a :: l)
           end)
  end.

(** The transport: how [backendSrv.get] settles for a request. *)
Class BackendSrv := {
  backendSrv_get : string -> option HttpParams.t -> Outcome jsval
}.

(** ** The methods of the data source *)

Definition strict_eq_jsstr (v : jsval) (s : string) : bool :=
  match v with JStr x => String.eqb x s | _ => false end.

(** A possibly undefined string inside a template literal. *)
Definition template (v : option string) : string :=
  match v with Some s => s | None => "undefined" end.

(** [new WebSocket(url)]. *)
Definition newWebSocket (url : string) : State WebSocket :=
  fun w => (fresh w,
            {| this := this w; fresh := S (fresh w);
               trace := trace w ++ [SocketNew (fresh w) url] |}).

(** [this.sockets.push(socket)]. *)
Definition pushSocket (socket : WebSocket) : State unit :=
  fun w => (tt, {| this := DataSource.push socket (this w); fresh := fresh w;
                   trace := trace w |}).

(** The close codes the platform's [WebSocket.close] accepts: 1000 and
    3000 to 4999. *)
Definition validCloseCode (code : Z) : bool :=
  ((code =? 1000) || ((3000 <=? code) && (code <=? 4999)))%Z.

(** [socket.close(code)]: with any other code the call throws an
    [InvalidAccessError] and the socket stays as it is. *)
Definition WebSocket_close (socket : WebSocket) (code : Z) : State (option Thrown) :=
  if validCloseCode code
  then emit (SocketClose socket code) ;;; ret None
  else ret (Some InvalidAccessError).

(** closeSockets (DataSource.ts 53-55). *)
Definition closeSockets : State (option Thrown) :=
  self <~ getThis ;;
  forEach (DataSource.sockets self) (fun socket => WebSocket_close socket 1001).

Module TestResult.
Record t := { status : string }.
End TestResult.

Inductive Normalized :=
| NTable (table : TableResponse)
| NSeries (series : list TimeSeries.t).

(** An element of [data.flat()]. *)
Inductive Item :=
| ItemTable (table : TableResponse)
| ItemSeries (series : TimeSeries.t).

Definition flat (data : list Normalized) : list Item :=
  concat (map (fun d => match d with
                        | NTable t => [ItemTable t]
                        | NSeries l => map ItemSeries l
                        end) data).

Module DataQueryRequest.
Record t := { targets : list MyQuery.t; range : TimeRange.t }.
End DataQueryRequest.

Module DataQueryResponse.
Record t := { data : list Item }.
End DataQueryResponse.

(** The closure an element of [observables] is: it captured [query]. *)
Module Observable.
Record t := { query : QueryParams.t }.
End Observable.

Inductive QueryResult :=
| Threw (e : Thrown)
| ReturnObservable (merged : list Observable.t)
| ReturnPromise (p : Promise DataQueryResponse.t).

(** One subscribed observable: its socket, its frame, the captured query,
    and whether its subscriber was completed. *)
Module Subscription.
Record t := {
  socket : WebSocket;
  frame : Frame.t;
  query : QueryParams.t;
  stopped : bool
}.
End Subscription.

Inductive SocketEvent :=
| OnOpen
| OnError (error : jsval)
| OnClose
| OnMessage (data : string).

(** [frame.add(row)]: append at the tail, keep the newest [capacity] rows. *)
Definition Frame_add (f : Frame.t) (row : jsval * jsval) : Frame.t :=
  let rows := Frame.values f ++ [row] in
  {| Frame.refId := Frame.refId f;
     Frame.fields := Frame.fields f;
     Frame.capacity := Frame.capacity f;
     Frame.values := drop (length rows - Frame.capacity f) rows |}.

(** The template literal of [freeTextQuery]. *)
Definition freeTextUrl (self : DataSource.t) (query : string) : string :=
  (DataSource.baseUrl self ++ "/" ++ query ++ "&token=" ++ DataSource.token self)%string.

(** The two template literals of [get]. *)
Definition resourceUrl (self : DataSource.t) (dataType : option string) : string :=
  let url := (DataSource.baseUrl self
              ++ (if strict_eq_str dataType "quote" then "" else "/stock"))%string in
  (url ++ "/" ++ template dataType)%string.

(** [{ ...params, token: this.token }]. *)
Definition withToken (self : DataSource.t) (params : QueryParams.t) : option HttpParams.t :=
  Some {| HttpParams.params := params; HttpParams.token := DataSource.token self |}.

(** The argument of the probe, [{ symbol: 'AAPL' }]. *)
Definition probeParams : QueryParams.t :=
  {| QueryParams.symbol := Some "AAPL"; QueryParams.resolution := None;
     QueryParams.from := None; QueryParams.to := None;
     QueryParams.metric := None; QueryParams.refId := None |}.

Section Methods.
Context `{Runtime} `{Imports} `{BackendSrv}.

(** freeTextQuery (DataSource.ts 182-188). *)
Definition freeTextQuery (query : string) : State (Promise jsval) :=
  self <~ getThis ;;
  emit (HttpGet (freeTextUrl self query) None) ;;;
  ret (match backendSrv_get (freeTextUrl self query) None with
       | Fulfilled v => ret (Fulfilled v)
       | Rejected e =>
           emit (ConsoleError "Error retrieving data" e) ;;;
           ret (Fulfilled JUndefined)
       end).

(** get (DataSource.ts 190-201). *)
Definition get (dataType : option string) (params : QueryParams.t) : State (Promise jsval) :=
  self <~ getThis ;;
  emit (HttpGet (resourceUrl self dataType) (withToken self params)) ;;;
  ret (match backendSrv_get (resourceUrl self dataType) (withToken self params) with
       | Fulfilled v => ret (Fulfilled v)
       | Rejected e =>
           emit (ConsoleError "Error retrieving data" e) ;;;
           ret (Rejected e)
       end).

(** testDatasource (DataSource.ts 174-180). *)
Definition testDatasource : State (Promise TestResult.t) :=
  request <~ get (Some "profile") probeParams ;;
  ret (Promise_then request (fun resp =>
         match get_prop resp "status" with
         | None => Rejected TypeError
         | Some status =>
             if strict_eq_num status 200
             then Fulfilled {| TestResult.status := "success" |}
             else Fulfilled {| TestResult.status := "error" |}
         end)).

(** The callback of [request.then] (DataSource.ts 117-123). *)
Definition normalize (type : SelectableValue.t) (data : jsval) : Outcome Normalized :=
  let isTable := TargetType_eqb (getTargetType type) Table in
  of_option (
    metric ← get_prop data "metric";
    let data := if truthy metric then metric else data in
    if isTable then NTable <$> tableResponse (ensureArray data)
    else NSeries <$> tsResponse data (SelectableValue.value type)).

(** The callback of [targets.map] on the REST path (DataSource.ts 104-124). *)
Definition targetPromise (range : TimeRange.t) (target : MyQuery.t)
  : State (Promise Normalized) :=
  let targetWithDefaults := spread defaultQuery target in
  let queryText := MyQuery.queryText targetWithDefaults in
  let type := spread_type defaultQuery target in
  let structured :=
    let query := constructQuery (spread defaultQuery target) range in
    get (SelectableValue.value type) query in
  request <~ match queryText with
             | Some text => if String.eqb text "" then structured else freeTextQuery text
             | None => structured
             end ;;
  ret (Promise_then request (normalize type)).

(** The callback of [targets.map] on the streaming path, up to
    [new Observable] (DataSource.ts 61-64). *)
Definition targetObservable (range : TimeRange.t) (target : MyQuery.t) : Observable.t :=
  let targetWithDefaults := spread defaultQuery target in
  let query := constructQuery targetWithDefaults range in
  {| Observable.query := query |}.

(** query (DataSource.ts 57-127). A throw of [closeSockets] leaves [query]
    at once; [targets[0]] of an empty batch is [undefined], and reading its
    [type] throws. *)
Definition query (options : DataQueryRequest.t) : State QueryResult :=
  thrown <~ closeSockets ;;
  match thrown with
  | Some e => ret (Threw e)
  | None =>
      let targets := DataQueryRequest.targets options in
      let range := DataQueryRequest.range options in
      match targets with
      | [] => ret (Threw TypeError)
      | first :: _ =>
          if strict_eq_str (MyQuery.type first ≫= SelectableValue.value) "quote" then
            let observables := map (targetObservable range) targets in
            ret (ReturnObservable observables)
          else
            promises <~ mapState (targetPromise range) targets ;;
            ret (ReturnPromise
                   (Promise_then (Promise_all promises)
                      (fun data => Fulfilled {| DataQueryResponse.data := flat data |})))
      end
  end.

(** The subscriber function of an observable, run when it is subscribed
    (DataSource.ts 64-100). *)
Definition subscribe (o : Observable.t) : State Subscription.t :=
  let query := Observable.query o in
  let frame :=
    {| Frame.refId := QueryParams.refId query;
       Frame.fields := [("ts", "time"); ("value", "number")];
       Frame.capacity := 1000;
       Frame.values := [] |} in
  self <~ getThis ;;
  socket <~ newWebSocket (DataSource.websocketUrl self) ;;
  pushSocket socket ;;;
  ret {| Subscription.socket := socket; Subscription.frame := frame;
         Subscription.query := query; Subscription.stopped := false |}.

(** Subscribing to [merge(...observables)] subscribes to each, in order. *)
Definition subscribeMerged (merged : list Observable.t) : State (list Subscription.t) :=
  mapState subscribe merged.

(** The body of the [try] in [socket.onmessage]: [None] is a throw,
    [Some None] a message that is not a trade. *)
Definition readTrade (data : string) : Outcome (option (jsval * jsval)) :=
  match JSON_parse data with
  | None => Rejected SyntaxError
  | Some data =>
      of_option (
        type ← get_prop data "type";
        if strict_eq_jsstr type "trade" then
          rows ← get_prop data "data";
          row ← get_index rows 0;
          t ← get_prop row "t";
          p ← get_prop row "p";
          Some (Some (t, p))
        else Some None)
  end.

(** The four handlers installed on the socket (DataSource.ts 76-98); a
    completed subscriber ignores [next] and [complete]. *)
Definition handle (sub : Subscription.t) (ev : SocketEvent) : State Subscription.t :=
  let socket := Subscription.socket sub in
  let query := Subscription.query sub in
  match ev with
  | OnOpen =>
      emit (SocketSend socket
              (JObj [("type", JStr "subscribe");
                     ("symbol", or_undefined (JStr <$> QueryParams.symbol query))])) ;;;
      ret sub
  | OnError error =>
      emit (ConsoleLog "WebSocket error: " error) ;;;
      ret sub
  | OnClose =>
      if Subscription.stopped sub then ret sub
      else
        emit (SubscriberComplete socket) ;;;
        ret {| Subscription.socket := socket; Subscription.frame := Subscription.frame sub;
               Subscription.query := query; Subscription.stopped := true |}
  | OnMessage data =>
      match readTrade data with
      | Rejected e => emit (ConsoleError "" e) ;;; ret sub
      | Fulfilled None => ret sub
      | Fulfilled (Some (t, p)) =>
          let frame := Frame_add (Subscription.frame sub) (t, p) in
          (if Subscription.stopped sub then ret tt
           else emit (SubscriberNext socket
                        {| Emission.data := [frame];
                           Emission.key := QueryParams.refId query |})) ;;;
          ret {| Subscription.socket := socket; Subscription.frame := frame;
                 Subscription.query := query;
                 Subscription.stopped := Subscription.stopped sub |}
      end
  end.

(** A subscription handling a sequence of socket events. *)
Fixpoint run (sub : Subscription.t) (evs : list SocketEvent) : State Subscription.t :=
  match evs with
  | [] => ret sub
  | ev :: rest => sub' <~ handle sub ev ;; run sub' rest
  end.

End Methods.

(** ** Concrete collaborators for the examples *)

Definition digit (c : ascii) : option Z :=
  let n := nat_of_ascii c in
  if Nat.leb 48 n && Nat.leb n 57 then Some (Z.of_nat (n - 48)) else None.

Fixpoint decimal (acc : Z) (s : string) : option Z :=
  match s with
  | EmptyString => Some acc
  | String c rest => d ← digit c; decimal (10 * acc + d) rest
  end.

(** Days from 1970-01-01 to a date of the proleptic Gregorian calendar. *)
Definition days_from_civil (y m d : Z) : Z :=
  let y' := if (m <=? 2)%Z then (y - 1)%Z else y in
  let era := (y' / 400)%Z in
  let yoe := (y' - era * 400)%Z in
  let mp := if (m >? 2)%Z then (m - 3)%Z else (m + 9)%Z in
  let doy := ((153 * mp + 2) / 5 + d - 1)%Z in
  let doe := (yoe * 365 + yoe / 4 - yoe / 100 + doy)%Z in
  (era * 146097 + doe - 719468)%Z.

Definition isLeapYear (y : Z) : bool :=
  ((y mod 4 =? 0) && (negb (y mod 100 =? 0) || (y mod 400 =? 0)))%Z.

Definition daysInMonth (y m : Z) : Z :=
  if (m =? 2)%Z then (if isLeapYear y then 29 else 28)%Z
  else if ((m =? 4) || (m =? 6) || (m =? 9) || (m =? 11))%Z then 30%Z
  else 31%Z.

(** [new Date(s).getTime()] for a date-only ISO string [YYYY-MM-DD] that
    names a day of the calendar: UTC midnight of that day. The examples need
    no other form. *)
Definition isoDateMs (s : string) : option Z :=
  if Nat.eqb (String.length s) 10
     && String.eqb (String.substring 4 1 s) "-"
     && String.eqb (String.substring 7 1 s) "-"
  then
    y ← decimal 0 (String.substring 0 4 s);
    m ← decimal 0 (String.substring 5 2 s);
    d ← decimal 0 (String.substring 8 2 s);
    if ((1 <=? m) && (m <=? 12) && (1 <=? d) && (d <=? daysInMonth y m))%Z
    then Some (days_from_civil y m d * 86400000)%Z
    else None
  else None.

(** The one message the example runtime's [JSON.parse] knows: the text
    [tick] stands for the trade [{type: trade, data: [{t: 1690000000, p: 250.5}]}]. *)
Definition tradeMessage : jsval :=
  JObj [("type", JStr "trade");
        ("data", JArr [JObj [("t", JNum 1690000000); ("p", JNum 250.5)]])].

Definition exampleRuntime : Runtime :=
  {| Date_getTime := fun v =>
       match v with
       | JStr s => match isoDateMs s with Some ms => num_of_Z ms | None => PrimFloat.nan end
       | _ => PrimFloat.nan
       end;
     ToNumber_object := fun _ => PrimFloat.nan;
     JSON_parse := fun s => if String.eqb s "tick" then Some tradeMessage else None;
     toUpperCase_unicode := fun s => s |}.

(** Modelled from the spec: [getTargetType] of ./utils, which is not among
    the repository's files. Section 4.2 has the standard kinds (profile,
    candle, quote, earnings) route to TimeSeries and metric to Table; a kind
    it does not list is classified Table here. *)
Definition getTargetType_spec (type : SelectableValue.t) : TargetType :=
  match SelectableValue.value type with
  | Some "profile" | Some "candle" | Some "quote" | Some "earnings" => Timeseries
  | _ => Table
  end.

(** Modelled from the spec: [ensureArray] of ./utils, which is not among
    the repository's files. Section 4.5 normalizes a table from a list of
    payload entries; a payload that is not a list is its only entry. *)
Definition ensureArray_spec (data : jsval) : list jsval :=
  match data with
  | JArr l => l
  | _ => [data]
  end.

(** Defaults for the examples; every example target lists the fields it needs. *)
Definition exampleDefaults : Defaults.t :=
  {| Defaults.symbol := None;
     Defaults.type := {| SelectableValue.value := Some "profile";
                         SelectableValue.label := None |};
     Defaults.resolution := None;
     Defaults.metric := None;
     Defaults.queryText := None |}.

Definition specImports : Imports :=
  {| defaultQuery := exampleDefaults;
     getTargetType := getTargetType_spec;
     ensureArray := ensureArray_spec |}.

(** A transport that settles every request the same way. *)
Definition constBackend (o : Outcome jsval) : BackendSrv :=
  {| backendSrv_get := fun _ _ => o |}.

Definition networkDown : Thrown := Reason (JStr "network down").

Definition kind (value : string) : option SelectableValue.t :=
  Some {| SelectableValue.value := Some value; SelectableValue.label := None |}.

(** A fresh instance. *)
Definition world0 : World :=
  {| this := DataSource.new "Finnhub" "TOKEN"; fresh := 0; trace := [] |}.

Definition exampleRange : TimeRange.t :=
  {| TimeRange.from := {| DateTime.valueOf := 1577836800123 |};
     TimeRange.to := {| DateTime.valueOf := 1577923200999 |} |}.

(** Example targets: a candle query typed in lower case, a streaming quote,
    and a candle query issued through the free-text override. *)
Definition candleTarget : MyQuery.t :=
  {| MyQuery.refId := "A"; MyQuery.symbol := Some "aapl"; MyQuery.type := kind "candle";
     MyQuery.resolution := Some (JStr "D"); MyQuery.metric := None;
     MyQuery.queryText := None |}.

Definition streamTarget : MyQuery.t :=
  {| MyQuery.refId := "A"; MyQuery.symbol := Some "TSLA"; MyQuery.type := kind "quote";
     MyQuery.resolution := None; MyQuery.metric := None; MyQuery.queryText := None |}.

Definition freeTextCandleTarget : MyQuery.t :=
  {| MyQuery.refId := "A"; MyQuery.symbol := None; MyQuery.type := kind "candle";
     MyQuery.resolution := None; MyQuery.metric := None;
     MyQuery.queryText := Some "stock/candle?symbol=AAPL&resolution=D" |}.

Definition candlePayload : jsval :=
  JObj [("t", JArr [JNum 100; JNum 200]);
        ("o", JArr [JNum 10; JNum 11]);
        ("c", JArr [JNum 12; JNum 13])].

Definition earningsPayload : jsval :=
  JArr [JObj [("period", JStr "2020-01-01"); ("symbol", JStr "AAPL");
              ("actual", JNum 1.1); ("estimate", JNum 1.0)]].


(** The caller awaits the promise a method returns: the method runs, then
    its promise settles. *)
Definition settle {A : Type} (c : State (Promise A)) : State (Outcome A) :=
  p <~ c ;; p.

Definition isHttpGet (e : Event) : bool :=
  match e with HttpGet _ _ => true | _ => false end.

Definition isConsoleError (e : Event) : bool :=
  match e with ConsoleError _ _ => true | _ => false end.

(** A computation that leaves the instance and the socket supply alone and
    only appends events that satisfy [ok]. *)
Definition only_emits {A : Type} (ok : Event -> bool) (c : State A) : Prop :=
  forall w,
    this (snd (c w)) = this w
    /\ fresh (snd (c w)) = fresh w
    /\ exists evs, trace (snd (c w)) = trace w ++ evs /\ forallb ok evs = true.

(** A falsy [queryText]: absent or empty. *)
Definition falsy_text (queryText : option string) : bool :=
  match queryText with
  | Some text => String.eqb text ""
  | None => true
  end.

Definition isTableResult (n : Normalized) : bool :=
  match n with NTable _ => true | NSeries _ => false end.

Section Scenarios.
Context `{Runtime} `{Imports} `{BackendSrv}.

(** The caller of a REST batch: [query], then the returned promise settles. *)
Definition awaitQuery (options : DataQueryRequest.t)
  : State (option (Outcome DataQueryResponse.t)) :=
  result <~ query options ;;
  match result with
  | ReturnPromise p => o <~ p ;; ret (Some o)
  | _ => ret None
  end.

(** The caller of a streaming batch: [query], then the merged observable is
    subscribed, then every socket receives the events [evs]. *)
Definition streamQuery (options : DataQueryRequest.t) (evs : list SocketEvent)
  : State (list Subscription.t) :=
  result <~ query options ;;
  match result with
  | ReturnObservable merged =>
      subs <~ subscribeMerged merged ;;
      mapState (fun sub => run sub evs) subs
  | _ => ret []
  end.

End Scenarios.

(** The instance after a streaming batch of two targets was queried and
    subscribed: it holds the two sockets of that batch. *)
Definition world2 : World :=
  snd (@streamQuery exampleRuntime specImports (constBackend (Rejected networkDown))
         {| DataQueryRequest.targets := [streamTarget; streamTarget];
            DataQueryRequest.range := exampleRange |} [] world0).

(** What every emission of a subscription must carry, were the program to
    tag it with [tag]; any other event passes. *)
Definition tagged_with (tag : option RefIdValue) (e : Event) : Prop :=
  match e with
  | SubscriberNext _ emission =>
      Emission.key emission = tag
      /\ Forall (fun frame => Frame.refId frame = tag) (Emission.data emission)
  | _ => True
  end.

(** A target tagged quote-stream, the name of the streaming kind that the
    program's tags do not have. *)
Definition quoteStreamTarget : MyQuery.t :=
  {| MyQuery.refId := "A"; MyQuery.symbol := Some "TSLA"; MyQuery.type := kind "quote-stream";
     MyQuery.resolution := None; MyQuery.metric := None; MyQuery.queryText := None |}.

(** An earnings payload whose second data point has a field the first lacks. *)
Definition unevenEarningsPayload : jsval :=
  JArr [JObj [("period", JStr "2020-01-01"); ("actual", JNum 1.1)];
        JObj [("period", JStr "2020-04-01"); ("actual", JNum 1.2); ("estimate", JNum 1.0)]].

(** A free-text target of metric kind, and a metric response in its envelope. *)
Definition freeTextMetricTarget : MyQuery.t :=
  {| MyQuery.refId := "B"; MyQuery.symbol := None; MyQuery.type := kind "metric";
     MyQuery.resolution := None; MyQuery.metric := None;
     MyQuery.queryText := Some "stock/metric?symbol=AAPL&metric=price" |}.

Definition metricPayload : jsval :=
  JObj [("metric", JObj [("beta", JNum 1.25); ("currency", JStr "USD")]);
        ("symbol", JStr "AAPL")].

(** ** What the REST path and a subscription compute *)

Section Summaries.
Context `{Runtime} `{Imports} `{BackendSrv}.

(** The request the REST path issues for a target: the free-text
    passthrough when the merged [queryText] is truthy, the structured
    request of [get] otherwise. *)
Definition issuedRequest (self : DataSource.t) (range : TimeRange.t) (target : MyQuery.t)
  : Event :=
  match MyQuery.queryText (spread defaultQuery target) with
  | Some text =>
      if String.eqb text ""
      then HttpGet (resourceUrl self (SelectableValue.value (spread_type defaultQuery target)))
                   (withToken self (constructQuery (spread defaultQuery target) range))
      else HttpGet (freeTextUrl self text) None
  | None =>
      HttpGet (resourceUrl self (SelectableValue.value (spread_type defaultQuery target)))
              (withToken self (constructQuery (spread defaultQuery target) range))
  end.

(** How the request of a target settles: a failed free-text request
    fulfils with [undefined], a failed structured request rejects. *)
Definition fetched (self : DataSource.t) (range : TimeRange.t) (target : MyQuery.t)
  : Outcome jsval :=
  match MyQuery.queryText (spread defaultQuery target) with
  | Some text =>
      if String.eqb text ""
      then backendSrv_get
             (resourceUrl self (SelectableValue.value (spread_type defaultQuery target)))
             (withToken self (constructQuery (spread defaultQuery target) range))
      else match backendSrv_get (freeTextUrl self text) None with
           | Fulfilled v => Fulfilled v
           | Rejected _ => Fulfilled JUndefined
           end
  | None =>
      backendSrv_get
        (resourceUrl self (SelectableValue.value (spread_type defaultQuery target)))
        (withToken self (constructQuery (spread defaultQuery target) range))
  end.

(** How the promise of a target settles. *)
Definition targetOutcome (self : DataSource.t) (range : TimeRange.t) (target : MyQuery.t)
  : Outcome Normalized :=
  match fetched self range target with
  | Fulfilled data => normalize (spread_type defaultQuery target) data
  | Rejected e => Rejected e
  end.

(** The trades among the messages a socket receives, in arrival order. *)
Fixpoint tradesOf (evs : list SocketEvent) : list (jsval * jsval) :=
  match evs with
  | [] => []
  | OnMessage data :: rest =>
      match readTrade data with
      | Fulfilled (Some row) => row :: tradesOf rest
      | _ => tradesOf rest
      end
  | _ :: rest => tradesOf rest
  end.

End Summaries.

(** The first rejection in list order, or all the values. *)
Fixpoint joinOutcomes {A : Type} (os : list (Outcome A)) : Outcome (list A) :=
  match os with
  | [] => Fulfilled []
  | o :: rest =>
      match o, joinOutcomes rest with
      | Rejected e, _ => Rejected e
      | Fulfilled _, Rejected e => Rejected e
      | Fulfilled a, Fulfilled l => Fulfilled (a :: l)
      end
  end.

Definition isSubscriberEvent (e : Event) : bool :=
  match e with
  | SubscriberNext _ _ | SubscriberComplete _ => true
  | _ => false
  end.

Definition isNullish (v : jsval) : bool :=
  match v with JUndefined | JNull => true | _ => false end.

(** The response Finnhub gives for a candle query without data. *)
Definition noDataPayload : jsval := JObj [("s", JStr "no_data")].

Definition earningsTarget : MyQuery.t :=
  {| MyQuery.refId := "C"; MyQuery.symbol := Some "AAPL"; MyQuery.type := kind "earnings";
     MyQuery.resolution := None; MyQuery.metric := None; MyQuery.queryText := None |}.

(** * Properties *)

(** ** Helper lemmas *)








(** Whatever the kind, the request's [symbol] is the upper-cased symbol and
    its [refId] is the object wrapping the target. *)
Lemma constructQuery_symbol `{Runtime} (target : MyQuery.t) (range : TimeRange.t) :
  QueryParams.symbol (constructQuery target range) = toUpperCase <$> MyQuery.symbol target.
Proof.
  unfold constructQuery.
  destruct (strict_eq_str _ "candle"); [reflexivity|].
  destruct (strict_eq_str _ "metric"); reflexivity.
Qed.

Lemma constructQuery_refId `{Runtime} (target : MyQuery.t) (range : TimeRange.t) :
  QueryParams.refId (constructQuery target range) = Some (RefIdObject target).
Proof.
  unfold constructQuery.
  destruct (strict_eq_str _ "candle"); [reflexivity|].
  destruct (strict_eq_str _ "metric"); reflexivity.
Qed.

(** ** The request builder *)



(** C6, as amended. For every target of candle kind and every time range,
    the request's [from] and [to] are the unix seconds of the range's start
    and end (the floor of the milliseconds divided by 1000), its [symbol] is
    the target's symbol in upper case, and its [resolution] is the target's
    resolution. *)
Theorem constructQuery_candle `{Runtime} (target : MyQuery.t) (range : TimeRange.t) :
  MyQuery.type target ≫= SelectableValue.value = Some "candle" ->
  QueryParams.from (constructQuery target range)
    = Some (DateTime.unix (TimeRange.from range))
  /\ QueryParams.to (constructQuery target range)
    = Some (DateTime.unix (TimeRange.to range))
  /\ (1000 * DateTime.unix (TimeRange.from range)
        <= DateTime.valueOf (TimeRange.from range)
        < 1000 * DateTime.unix (TimeRange.from range) + 1000)%Z
  /\ (1000 * DateTime.unix (TimeRange.to range)
        <= DateTime.valueOf (TimeRange.to range)
        < 1000 * DateTime.unix (TimeRange.to range) + 1000)%Z
  /\ QueryParams.symbol (constructQuery target range)
    = toUpperCase <$> MyQuery.symbol target
  /\ QueryParams.resolution (constructQuery target range) = MyQuery.resolution target.
Proof.
  intros Hkind. unfold constructQuery. rewrite Hkind. simpl.
  unfold DateTime.unix.
  repeat split; try reflexivity;
    try (pose proof (Z.mul_div_le (DateTime.valueOf (TimeRange.from range)) 1000);
         pose proof (Z.mod_pos_bound (DateTime.valueOf (TimeRange.from range)) 1000);
         pose proof (Z.div_mod (DateTime.valueOf (TimeRange.from range)) 1000);
         pose proof (Z.mul_div_le (DateTime.valueOf (TimeRange.to range)) 1000);
         pose proof (Z.mod_pos_bound (DateTime.valueOf (TimeRange.to range)) 1000);
         pose proof (Z.div_mod (DateTime.valueOf (TimeRange.to range)) 1000);
         lia).
Qed.

(** C6 at a candle target typed in lower case over a range that is not on a
    second boundary. *)
Lemma constructQuery_candle_witness :
  QueryParams.from (@constructQuery exampleRuntime candleTarget exampleRange) = Some 1577836800%Z
  /\ QueryParams.to (@constructQuery exampleRuntime candleTarget exampleRange) = Some 1577923200%Z
  /\ QueryParams.symbol (@constructQuery exampleRuntime candleTarget exampleRange) = Some "AAPL"
  /\ QueryParams.resolution (@constructQuery exampleRuntime candleTarget exampleRange) = Some (JStr "D").
Proof.
  destruct (@constructQuery_candle exampleRuntime candleTarget exampleRange eq_refl)
    as (Hfrom & Hto & _ & _ & Hsymbol & Hresolution).
  exact (conj Hfrom (conj Hto (conj Hsymbol Hresolution))).
Defined.

(** C6 as stated fails at that target: the request's symbol is AAPL, not the
    target's aapl, and its [refId] is not the target's refId string. *)
Lemma constructQuery_candle_counterexample :
  ~ (QueryParams.from (@constructQuery exampleRuntime candleTarget exampleRange)
       = Some (DateTime.unix (TimeRange.from exampleRange))
     /\ QueryParams.to (@constructQuery exampleRuntime candleTarget exampleRange)
       = Some (DateTime.unix (TimeRange.to exampleRange))
     /\ QueryParams.symbol (@constructQuery exampleRuntime candleTarget exampleRange)
       = MyQuery.symbol candleTarget
     /\ QueryParams.resolution (@constructQuery exampleRuntime candleTarget exampleRange)
       = MyQuery.resolution candleTarget
     /\ QueryParams.refId (@constructQuery exampleRuntime candleTarget exampleRange)
       = Some (RefIdString (MyQuery.refId candleTarget))).
Proof.
  intros (_ & _ & Hsymbol & _ & HrefId).
  vm_compute in HrefId. discriminate HrefId.
Qed.

(** ** The time-series normalizer *)

Lemma mapM_total {A B : Type} (f : A -> option B) (g : A -> B) (l : list A) :
  (forall x, In x l -> f x = Some (g x)) -> mapM f l = Some (map g l).
Proof.
  induction l as [|x l IH]; intros Hf; simpl.
  - reflexivity.
  - rewrite (Hf x) by (left; reflexivity). simpl.
    rewrite IH by (intros y Hy; apply Hf; right; exact Hy). reflexivity.
Qed.

Lemma imapM_from_total {A B : Type} (f : nat -> A -> option B) (g : nat -> A -> B)
  (n : nat) (l : list A) :
  (forall i x, f i x = Some (g i x)) ->
  imapM_from f n l = Some (imap (fun i => g (n + i)) l).
Proof.
  intros Hf. revert n. induction l as [|x l IH]; intros n; simpl.
  - reflexivity.
  - rewrite Hf. simpl. rewrite IH. simpl.
    rewrite Nat.add_0_r. do 2 f_equal.
    apply imap_ext. intros i y _. simpl. f_equal. lia.
Qed.

Lemma imapM_from_objects {B : Type} (f : jsval -> nat -> option B)
  (g : list (string * jsval) -> B) (n : nat) (points : list (list (string * jsval))) :
  (forall dp i, f (JObj dp) i = Some (g dp)) ->
  imapM_from (fun i x => f x i) n (map JObj points) = Some (map g points).
Proof.
  intros Hf. revert n. induction points as [|dp points IH]; intros n; simpl.
  - reflexivity.
  - rewrite Hf. simpl. rewrite IH. reflexivity.
Qed.

(** Zipping by index is zipping the lists when no value is missing. *)
Lemma imap_lookup_zip {A : Type} (g : A -> float) (values : list jsval) (times : list A) :
  length times <= length values ->
  imap (fun i time => (or_undefined (values !! i), g time)) times
  = map (fun vt => (fst vt, g (snd vt))) (zip values times).
Proof.
  revert values. induction times as [|time times IH]; intros values Hlen.
  - destruct values; reflexivity.
  - destruct values as [|v values]; simpl in Hlen; [lia|].
    simpl. f_equal. apply IH. lia.
Qed.

(** The names of the series an earnings payload yields are the keys of its
    first data point that pass the exclusion filter, whatever the payload. *)
Lemma tsResponse_earnings_targets `{Runtime} (data : jsval) (series : list TimeSeries.t) :
  tsResponse data (Some "earnings") = Some series ->
  exists d0 ks,
    get_index data 0 = Some d0 /\ Object_keys d0 = Some ks
    /\ map TimeSeries.target series
       = List.filter (fun key => negb (includes ["period"; "symbol"] key)) ks.
Proof.
  unfold tsResponse.
  change (strict_eq_str (Some "earnings") "earnings") with true. cbv iota.
  destruct (get_index data 0) as [d0|] eqn:Hd0; [|discriminate]. simpl.
  destruct (Object_keys d0) as [ks|] eqn:Hks; [|discriminate]. simpl.
  intros Hm. exists d0, ks. split; [reflexivity|]. split; [exact Hks|].
  revert series Hm.
  induction (List.filter _ ks) as [|key keys IH]; intros series Hm; simpl in Hm.
  - injection Hm as <-. reflexivity.
  - destruct (Array_map data _) as [dps|]; [|discriminate]. simpl in Hm.
    destruct (mapM _ keys) as [rest|]; [|discriminate]. simpl in Hm.
    injection Hm as <-. simpl. f_equal. apply IH. reflexivity.
Qed.

Lemma not_excluded (key : string) :
  negb (includes ["period"; "symbol"] key) = true -> key <> "period" /\ key <> "symbol".
Proof.
  unfold includes. simpl. intros Hk.
  split; intros ->; discriminate Hk.
Qed.

(** C7, as amended. For every non-empty earnings payload (a list of
    data-point objects), [tsResponse] yields one series per key of the first
    data point other than period and symbol, in key order, and the samples of
    the series named [key] are, for every data point in payload order, the
    point's value under [key] ([undefined] when the point lacks it) paired
    with the epoch milliseconds of the point's period date. Whatever the
    payload, no series is ever named period or symbol.
    The payload of one data point with an actual of 1.1 and an estimate of 1.0
    yields exactly the series actual and estimate, one sample each,
    timestamped at the epoch milliseconds of 2020-01-01. *)
Theorem tsResponse_earnings `{Runtime}
  (point : list (string * jsval)) (points : list (list (string * jsval))) :
  tsResponse (JArr (map JObj (point :: points))) (Some "earnings")
  = Some (map (fun key =>
                 {| TimeSeries.target := key;
                    TimeSeries.datapoints :=
                      map (fun dp => (or_undefined (assoc key dp),
                                      Date_getTime (or_undefined (assoc "period" dp))))
                          (point :: points) |})
              (List.filter (fun key => negb (includes ["period"; "symbol"] key))
                 (map fst point)))
  /\ (forall data,
        match tsResponse data (Some "earnings") with
        | Some series =>
            Forall (fun s => TimeSeries.target s <> "period"
                             /\ TimeSeries.target s <> "symbol") series
        | None => True
        end)
  /\ tsResponse earningsPayload (Some "earnings")
     = Some [ {| TimeSeries.target := "actual";
                 TimeSeries.datapoints := [(JNum 1.1, Date_getTime (JStr "2020-01-01"))] |};
              {| TimeSeries.target := "estimate";
                 TimeSeries.datapoints := [(JNum 1.0, Date_getTime (JStr "2020-01-01"))] |} ].
Proof.
  split; [|split].
  - unfold tsResponse.
    change (strict_eq_str (Some "earnings") "earnings") with true. cbv iota.
    change (get_index (JArr (map JObj (point :: points))) 0) with (Some (JObj point)).
    change (Object_keys (JObj point)) with (Some (map fst point)).
    simpl mbind. apply mapM_total. intros key _.
    unfold Array_map.
    rewrite (imapM_from_objects _
               (fun dp => (or_undefined (assoc key dp),
                           Date_getTime (or_undefined (assoc "period" dp)))))
      by (intros dp i; reflexivity).
    reflexivity.
  - intros data.
    destruct (tsResponse data (Some "earnings")) as [series|] eqn:Hseries; [|exact I].
    apply List.Forall_forall. intros s Hin.
    destruct (tsResponse_earnings_targets data series Hseries) as (d0 & ks & _ & _ & Hnames).
    apply not_excluded.
    assert (Hkey : In (TimeSeries.target s)
                      (List.filter (fun key => negb (includes ["period"; "symbol"] key)) ks)).
    { rewrite <- Hnames. apply in_map. exact Hin. }
    apply List.filter_In in Hkey. apply Hkey.
  - reflexivity.
Qed.

(** C7 as stated fails at a payload whose second data point has the field
    estimate and whose first has not: the only series is actual, and the
    field estimate of the data points gets no series. *)
Lemma tsResponse_earnings_counterexample :
  @tsResponse exampleRuntime unevenEarningsPayload (Some "earnings")
  = Some [ {| TimeSeries.target := "actual";
              TimeSeries.datapoints := [ (JNum 1.1, 1577836800000%float);
                                         (JNum 1.2, 1585699200000%float) ] |} ]
  /\ get_index unevenEarningsPayload 1
     = Some (JObj [("period", JStr "2020-04-01"); ("actual", JNum 1.2);
                   ("estimate", JNum 1.0)])
  /\ ~ exists series s,
         @tsResponse exampleRuntime unevenEarningsPayload (Some "earnings") = Some series
         /\ In s series /\ TimeSeries.target s = "estimate".
Proof.
  assert (Hresult :
    @tsResponse exampleRuntime unevenEarningsPayload (Some "earnings")
    = Some [ {| TimeSeries.target := "actual";
                TimeSeries.datapoints := [ (JNum 1.1, 1577836800000%float);
                                           (JNum 1.2, 1585699200000%float) ] |} ])
    by (vm_compute; reflexivity).
  split; [exact Hresult|]. split; [reflexivity|].
  intros (series & s & Hseries & Hin & Hname).
  rewrite Hresult in Hseries. injection Hseries as <-.
  destruct Hin as [<-|[]]. discriminate Hname.
Qed.

(** One element of [fields.map] in the candle case. *)
Lemma candle_field `{Runtime} (data : jsval) (t values : list jsval) (field : string) :
  get_prop data "t" = Some (JArr t) ->
  get_prop data (String.substring 0 1 field) = Some (JArr values) ->
  (t ← get_prop data "t";
   dps ← Array_map t (fun time i =>
            col ← get_prop data (String.substring 0 1 field);
            v ← get_index col i;
            Some (v, PrimFloat.mul (ToNumber time) 1000));
   Some {| TimeSeries.target := field; TimeSeries.datapoints := dps |})
  = Some {| TimeSeries.target := field;
            TimeSeries.datapoints :=
              imap (fun i time => (or_undefined (values !! i),
                                   PrimFloat.mul (ToNumber time) 1000)) t |}.
Proof.
  intros Ht Hcol. rewrite Ht. simpl mbind. unfold Array_map.
  rewrite (imapM_from_total _
             (fun i time => (or_undefined (values !! i), PrimFloat.mul (ToNumber time) 1000)))
    by (intros i time; cbv beta; rewrite Hcol; reflexivity).
  reflexivity.
Qed.

(** C8. For every candle payload (an object whose [t], [o] and [c] are
    arrays), [tsResponse] yields exactly two series, named open price and
    close price, whose i-th samples pair the i-th element of [o] (of [c])
    with the i-th time multiplied by 1000; when no value is missing this is
    the zip of the values with the times. The payload with times 100 and
    200, opens 10 and 11 and closes 12 and 13 yields the samples
    (10, 100000), (11, 200000) and (12, 100000), (13, 200000). *)
Theorem tsResponse_candle `{Runtime} (data : jsval) (t o c : list jsval) :
  get_prop data "t" = Some (JArr t) ->
  get_prop data "o" = Some (JArr o) ->
  get_prop data "c" = Some (JArr c) ->
  tsResponse data (Some "candle")
  = Some [ {| TimeSeries.target := "open price";
              TimeSeries.datapoints :=
                imap (fun i time => (or_undefined (o !! i),
                                     PrimFloat.mul (ToNumber time) 1000)) t |};
           {| TimeSeries.target := "close price";
              TimeSeries.datapoints :=
                imap (fun i time => (or_undefined (c !! i),
                                     PrimFloat.mul (ToNumber time) 1000)) t |} ]
  /\ (length t <= length o -> length t <= length c ->
      tsResponse data (Some "candle")
      = Some [ {| TimeSeries.target := "open price";
                  TimeSeries.datapoints :=
                    map (fun vt => (fst vt, PrimFloat.mul (ToNumber (snd vt)) 1000))
                        (zip o t) |};
               {| TimeSeries.target := "close price";
                  TimeSeries.datapoints :=
                    map (fun vt => (fst vt, PrimFloat.mul (ToNumber (snd vt)) 1000))
                        (zip c t) |} ])
  /\ tsResponse candlePayload (Some "candle")
     = Some [ {| TimeSeries.target := "open price";
                 TimeSeries.datapoints := [(JNum 10, 100000%float); (JNum 11, 200000%float)] |};
              {| TimeSeries.target := "close price";
                 TimeSeries.datapoints := [(JNum 12, 100000%float); (JNum 13, 200000%float)] |} ].
Proof.
  intros Ht Ho Hc.
  assert (Hgeneral :
    tsResponse data (Some "candle")
    = Some [ {| TimeSeries.target := "open price";
                TimeSeries.datapoints :=
                  imap (fun i time => (or_undefined (o !! i),
                                       PrimFloat.mul (ToNumber time) 1000)) t |};
             {| TimeSeries.target := "close price";
                TimeSeries.datapoints :=
                  imap (fun i time => (or_undefined (c !! i),
                                       PrimFloat.mul (ToNumber time) 1000)) t |} ]).
  { unfold tsResponse.
    change (strict_eq_str (Some "candle") "earnings") with false.
    change (strict_eq_str (Some "candle") "quote") with false.
    change (strict_eq_str (Some "candle") "candle") with true. cbv iota.
    change (mapM ?f ["open price"; "close price"])
      with (y ← f "open price"; k ← (z ← f "close price"; Some [z]); Some (y :: k)).
    cbv beta.
    rewrite (candle_field data t o "open price" Ht Ho).
    rewrite (candle_field data t c "close price" Ht Hc).
    reflexivity. }
  split; [exact Hgeneral|]. split.
  - intros Hlo Hlc. rewrite Hgeneral.
    rewrite (imap_lookup_zip (fun time => PrimFloat.mul (ToNumber time) 1000) o t Hlo).
    rewrite (imap_lookup_zip (fun time => PrimFloat.mul (ToNumber time) 1000) c t Hlc).
    reflexivity.
  - reflexivity.
Qed.

(** C8 at the payload with times 100 and 200, with the example runtime. *)
Lemma tsResponse_candle_witness :
  @tsResponse exampleRuntime candlePayload (Some "candle")
  = Some [ {| TimeSeries.target := "open price";
              TimeSeries.datapoints := [(JNum 10, 100000%float); (JNum 11, 200000%float)] |};
           {| TimeSeries.target := "close price";
              TimeSeries.datapoints := [(JNum 12, 100000%float); (JNum 13, 200000%float)] |} ].
Proof.
  destruct (@tsResponse_candle exampleRuntime candlePayload
              [JNum 100; JNum 200] [JNum 10; JNum 11] [JNum 12; JNum 13]
              eq_refl eq_refl eq_refl) as (_ & Hzip & _).
  exact (Hzip (le_n 2) (le_n 2)).
Defined.

(** With the example runtime, the timestamp of the earnings example is
    1577836800000, midnight UTC of 2020-01-01. *)
Lemma earnings_example_timestamp :
  @tsResponse exampleRuntime earningsPayload (Some "earnings")
  = Some [ {| TimeSeries.target := "actual";
              TimeSeries.datapoints := [(JNum 1.1, 1577836800000%float)] |};
           {| TimeSeries.target := "estimate";
              TimeSeries.datapoints := [(JNum 1.0, 1577836800000%float)] |} ].
Proof. vm_compute. reflexivity. Qed.

(** ** The world: what each method does to it *)

Lemma world_eta (w : World) :
  {| this := this w; fresh := fresh w; trace := trace w |} = w.
Proof. destruct w; reflexivity. Qed.

(** Close-all throws on the first held socket: 1001 is not a close code the
    platform accepts. It closes nothing and leaves the world as it was;
    without a held socket it does nothing. *)
Lemma closeSockets_spec (w : World) :
  closeSockets w
  = (match DataSource.sockets (this w) with
     | [] => None
     | _ :: _ => Some InvalidAccessError
     end, w).
Proof.
  unfold closeSockets, bind, getThis.
  destruct (DataSource.sockets (this w)) as [|socket sockets]; reflexivity.
Qed.

Lemma only_emits_ret {A : Type} (ok : Event -> bool) (a : A) : only_emits ok (ret a).
Proof.
  intros w. simpl. repeat split. exists []. rewrite app_nil_r. split; reflexivity.
Qed.

Lemma only_emits_emit (ok : Event -> bool) (e : Event) :
  ok e = true -> only_emits ok (emit e).
Proof.
  intros He w. simpl. repeat split. exists [e]. split; [reflexivity|].
  simpl. rewrite He. reflexivity.
Qed.

Lemma only_emits_bind {A B : Type} (ok : Event -> bool) (c : State A) (k : A -> State B) :
  only_emits ok c -> (forall a, only_emits ok (k a)) -> only_emits ok (bind c k).
Proof.
  intros Hc Hk w. unfold bind.
  destruct (Hc w) as (Hthis & Hfresh & evs & Htrace & Hok).
  destruct (c w) as [a w1]. simpl in *.
  destruct (Hk a w1) as (Hthis' & Hfresh' & evs' & Htrace' & Hok').
  split; [congruence|]. split; [congruence|].
  exists (evs ++ evs'). split.
  - rewrite Htrace', Htrace, app_assoc. reflexivity.
  - rewrite forallb_app, Hok, Hok'. reflexivity.
Qed.

Lemma only_emits_mapState {A B : Type} (ok : Event -> bool) (f : A -> State B) (l : list A) :
  (forall x, only_emits ok (f x)) -> only_emits ok (mapState f l).
Proof.
  intros Hf. induction l as [|x l IH]; simpl.
  - apply only_emits_ret.
  - apply only_emits_bind; [apply Hf|]. intros y.
    apply only_emits_bind; [exact IH|]. intros ys. apply only_emits_ret.
Qed.

Lemma mapState_cons {A B : Type} (f : A -> State B) (x : A) (l : list A) (w : World) :
  mapState f (x :: l) w
  = (fst (f x w) :: fst (mapState f l (snd (f x w))), snd (mapState f l (snd (f x w)))).
Proof.
  simpl. unfold bind, ret. destruct (f x w) as [y w1]. simpl.
  destruct (mapState f l w1) as [ys w2]. reflexivity.
Qed.

Section MethodFacts.
Context `{Runtime} `{Imports} `{BackendSrv}.

Lemma get_spec (dataType : option string) (params : QueryParams.t) (w : World) :
  get dataType params w
  = (match backendSrv_get (resourceUrl (this w) dataType) (withToken (this w) params) with
     | Fulfilled v => ret (Fulfilled v)
     | Rejected e => emit (ConsoleError "Error retrieving data" e) ;;; ret (Rejected e)
     end,
     {| this := this w; fresh := fresh w;
        trace := trace w ++ [HttpGet (resourceUrl (this w) dataType)
                               (withToken (this w) params)] |}).
Proof. reflexivity. Qed.

Lemma freeTextQuery_spec (text : string) (w : World) :
  freeTextQuery text w
  = (match backendSrv_get (freeTextUrl (this w) text) None with
     | Fulfilled v => ret (Fulfilled v)
     | Rejected e =>
         emit (ConsoleError "Error retrieving data" e) ;;; ret (Fulfilled JUndefined)
     end,
     {| this := this w; fresh := fresh w;
        trace := trace w ++ [HttpGet (freeTextUrl (this w) text) None] |}).
Proof. reflexivity. Qed.

Lemma get_only_requests (dataType : option string) (params : QueryParams.t) :
  only_emits isHttpGet (get dataType params).
Proof.
  intros w. rewrite get_spec. simpl. repeat split. eexists. split; reflexivity.
Qed.

Lemma freeTextQuery_only_requests (text : string) :
  only_emits isHttpGet (freeTextQuery text).
Proof.
  intros w. rewrite freeTextQuery_spec. simpl. repeat split. eexists. split; reflexivity.
Qed.

Lemma targetPromise_only_requests (range : TimeRange.t) (target : MyQuery.t) :
  only_emits isHttpGet (targetPromise range target).
Proof.
  unfold targetPromise. apply only_emits_bind.
  - destruct (MyQuery.queryText (spread defaultQuery target)) as [text|].
    + destruct (String.eqb text "").
      * apply get_only_requests.
      * apply freeTextQuery_only_requests.
    + apply get_only_requests.
  - intros request. apply only_emits_ret.
Qed.

(** [query] itself issues requests at most: it leaves [this] (and so
    [this.sockets]) unchanged and opens and closes no socket. *)
Lemma query_effects (options : DataQueryRequest.t) (w : World) :
  this (snd (query options w)) = this w
  /\ fresh (snd (query options w)) = fresh w
  /\ exists requests,
       trace (snd (query options w)) = trace w ++ requests
       /\ forallb isHttpGet requests = true.
Proof.
  unfold query, bind. rewrite closeSockets_spec.
  destruct (DataSource.sockets (this w)) as [|socket sockets].
  - destruct (DataQueryRequest.targets options) as [|first rest].
    + simpl. repeat split. exists []. rewrite app_nil_r. split; reflexivity.
    + destruct (strict_eq_str _ "quote").
      * simpl. repeat split. exists []. rewrite app_nil_r. split; reflexivity.
      * destruct (only_emits_mapState isHttpGet
                    (targetPromise (DataQueryRequest.range options))
                    (first :: rest) (targetPromise_only_requests _) w)
          as (Hthis & Hfresh & evs & Htrace & Hok).
        destruct (mapState _ (first :: rest) _) as [promises w1]. simpl in *.
        repeat split; [exact Hthis | exact Hfresh |].
        exists evs. split; [exact Htrace | exact Hok].
  - simpl. repeat split. exists []. rewrite app_nil_r. split; reflexivity.
Qed.

Lemma subscribe_spec (o : Observable.t) (w : World) :
  subscribe o w
  = ({| Subscription.socket := fresh w;
        Subscription.frame :=
          {| Frame.refId := QueryParams.refId (Observable.query o);
             Frame.fields := [("ts", "time"); ("value", "number")];
             Frame.capacity := 1000;
             Frame.values := [] |};
        Subscription.query := Observable.query o;
        Subscription.stopped := false |},
     {| this := DataSource.push (fresh w) (this w);
        fresh := S (fresh w);
        trace := trace w ++ [SocketNew (fresh w) (DataSource.websocketUrl (this w))] |}).
Proof. reflexivity. Qed.

(** Subscribing to the merged observable opens one socket per observable,
    in order, and appends each to [this.sockets]. *)
Lemma subscribeMerged_spec (merged : list Observable.t) (w : World) :
  DataSource.sockets (this (snd (subscribeMerged merged w)))
  = DataSource.sockets (this w) ++ map Subscription.socket (fst (subscribeMerged merged w))
  /\ trace (snd (subscribeMerged merged w))
     = trace w
       ++ map (fun sub => SocketNew (Subscription.socket sub) (DataSource.websocketUrl (this w)))
              (fst (subscribeMerged merged w))
  /\ DataSource.websocketUrl (this (snd (subscribeMerged merged w)))
     = DataSource.websocketUrl (this w)
  /\ map Subscription.query (fst (subscribeMerged merged w)) = map Observable.query merged
  /\ map Subscription.socket (fst (subscribeMerged merged w))
     = seq (fresh w) (length merged).
Proof.
  unfold subscribeMerged. revert w.
  induction merged as [|o merged IH]; intros w.
  - simpl. rewrite !app_nil_r. repeat split.
  - rewrite mapState_cons, subscribe_spec. cbn [fst snd].
    specialize (IH {| this := DataSource.push (fresh w) (this w);
                      fresh := S (fresh w);
                      trace := trace w ++ [SocketNew (fresh w)
                                             (DataSource.websocketUrl (this w))] |}).
    destruct (mapState subscribe merged _) as [subs w1].
    simpl in *. destruct IH as (Hsockets & Htrace & Hurl & Hqueries & Hids).
    rewrite Hsockets, Htrace, Hurl, Hqueries, Hids, <- !app_assoc. repeat split.
Qed.

Lemma handle_keeps_this (sub : Subscription.t) (ev : SocketEvent) (w : World) :
  this (snd (handle sub ev w)) = this w.
Proof.
  unfold handle. destruct ev as [| error | | data]; simpl; try reflexivity.
  - destruct (Subscription.stopped sub); reflexivity.
  - destruct (readTrade data) as [[[t p]|]|e]; simpl; try reflexivity.
    destruct (Subscription.stopped sub); reflexivity.
Qed.

End MethodFacts.

(** ** Routing and the socket list *)

Section Routing.
Context `{Runtime} `{Imports} `{BackendSrv}.

(** With a socket held, [query] throws before it looks at the batch. *)
Lemma query_held (options : DataQueryRequest.t) (w : World) :
  DataSource.sockets (this w) <> [] ->
  query options w = (Threw InvalidAccessError, w).
Proof.
  intros Hheld. unfold query, bind. rewrite closeSockets_spec.
  destruct (DataSource.sockets (this w)); [contradiction | reflexivity].
Qed.

Lemma query_cons (first : MyQuery.t) (rest : list MyQuery.t) (range : TimeRange.t)
  (w : World) :
  DataSource.sockets (this w) = [] ->
  query {| DataQueryRequest.targets := first :: rest; DataQueryRequest.range := range |} w
  = if strict_eq_str (MyQuery.type first ≫= SelectableValue.value) "quote"
    then (ReturnObservable (map (targetObservable range) (first :: rest)), w)
    else (ReturnPromise
            (Promise_then
               (Promise_all (fst (mapState (targetPromise range) (first :: rest) w)))
               (fun data => Fulfilled {| DataQueryResponse.data := flat data |})),
          snd (mapState (targetPromise range) (first :: rest) w)).
Proof.
  intros Hnone. unfold query, bind. rewrite closeSockets_spec, Hnone.
  cbn [DataQueryRequest.targets DataQueryRequest.range fst snd].
  destruct (strict_eq_str _ "quote"); [reflexivity|].
  destruct (mapState (targetPromise range) (first :: rest) w) as [promises w2].
  reflexivity.
Qed.

(** A result other than a throw shows that no socket was held and that the
    batch is not empty. *)
Lemma query_returned (options : DataQueryRequest.t) (w : World) :
  (forall e, fst (query options w) <> Threw e) ->
  DataSource.sockets (this w) = []
  /\ exists first rest, DataQueryRequest.targets options = first :: rest.
Proof.
  intros Hreturned.
  destruct (DataSource.sockets (this w)) as [|socket sockets] eqn:Hsockets.
  - split; [reflexivity|].
    destruct options as [targets range]. destruct targets as [|first rest]; [|eauto].
    exfalso. apply (Hreturned TypeError).
    unfold query, bind. rewrite closeSockets_spec, Hsockets. reflexivity.
  - exfalso. apply (Hreturned InvalidAccessError).
    rewrite query_held by (rewrite Hsockets; discriminate). reflexivity.
Qed.

Lemma mapState_length {A B : Type} (f : A -> State B) (l : list A) (w : World) :
  length (fst (mapState f l w)) = length l.
Proof.
  revert w. induction l as [|x l IH]; intros w.
  - reflexivity.
  - rewrite mapState_cons. simpl. rewrite IH. reflexivity.
Qed.

Lemma query_streaming (options : DataQueryRequest.t) (w : World) (merged : list Observable.t) :
  fst (query options w) = ReturnObservable merged ->
  merged = map (targetObservable (DataQueryRequest.range options))
               (DataQueryRequest.targets options)
  /\ snd (query options w) = w
  /\ DataSource.sockets (this w) = []
  /\ DataQueryRequest.targets options <> [].
Proof.
  intros Hresult.
  destruct (query_returned options w) as (Hnone & first & rest & Htargets).
  { intros e He. rewrite Hresult in He. discriminate He. }
  destruct options as [targets range]. cbn [DataQueryRequest.targets] in Htargets.
  subst targets. rewrite (query_cons first rest range w Hnone) in *.
  destruct (strict_eq_str _ "quote"); [|discriminate].
  cbn [fst snd] in *. injection Hresult as <-.
  repeat split; [exact Hnone | discriminate].
Qed.

Lemma Promise_then_only_logs {A B : Type} (p : Promise A) (cb : A -> Outcome B) :
  only_emits isConsoleError p -> only_emits isConsoleError (Promise_then p cb).
Proof.
  intros Hp. unfold Promise_then. apply only_emits_bind; [exact Hp|].
  intros o. apply only_emits_ret.
Qed.

Lemma Promise_all_only_logs {A : Type} (ps : list (Promise A)) :
  Forall (only_emits isConsoleError) ps -> only_emits isConsoleError (Promise_all ps).
Proof.
  induction 1 as [|p ps Hp _ IH]; simpl.
  - apply only_emits_ret.
  - apply only_emits_bind; [exact Hp|]. intros o.
    apply only_emits_bind; [exact IH|]. intros os. apply only_emits_ret.
Qed.

Lemma targetPromise_only_logs (range : TimeRange.t) (target : MyQuery.t) (w : World) :
  only_emits isConsoleError (fst (targetPromise range target w)).
Proof.
  unfold targetPromise, bind.
  assert (Hget : forall dataType params,
             only_emits isConsoleError (fst (get dataType params w))).
  { intros dataType params. rewrite get_spec. simpl.
    destruct (backendSrv_get _ _) as [v|e].
    - apply only_emits_ret.
    - apply only_emits_bind; [apply only_emits_emit; reflexivity|].
      intros _. apply only_emits_ret. }
  assert (Hfree : forall text, only_emits isConsoleError (fst (freeTextQuery text w))).
  { intros text. rewrite freeTextQuery_spec. simpl.
    destruct (backendSrv_get _ _) as [v|e].
    - apply only_emits_ret.
    - apply only_emits_bind; [apply only_emits_emit; reflexivity|].
      intros _. apply only_emits_ret. }
  destruct (MyQuery.queryText (spread defaultQuery target)) as [text|].
  - destruct (String.eqb text "").
    + specialize (Hget (SelectableValue.value (spread_type defaultQuery target))
                       (constructQuery (spread defaultQuery target) range)).
      destruct (get _ _ w) as [request w1]. simpl in *.
      apply Promise_then_only_logs. exact Hget.
    + specialize (Hfree text). destruct (freeTextQuery text w) as [request w1]. simpl in *.
      apply Promise_then_only_logs. exact Hfree.
  - specialize (Hget (SelectableValue.value (spread_type defaultQuery target))
                     (constructQuery (spread defaultQuery target) range)).
    destruct (get _ _ w) as [request w1]. simpl in *.
    apply Promise_then_only_logs. exact Hget.
Qed.

Lemma mapState_Forall {A B : Type} (P : B -> Prop) (f : A -> State B) (l : list A)
  (w : World) :
  (forall x w', P (fst (f x w'))) -> Forall P (fst (mapState f l w)).
Proof.
  intros Hf. revert w. induction l as [|x l IH]; intros w.
  - constructor.
  - rewrite mapState_cons. simpl. constructor; [apply Hf | apply IH].
Qed.

(** Settling the promise [query] returns only logs: it opens and closes no
    socket and leaves [this.sockets] unchanged. *)
Lemma query_promise_only_logs (options : DataQueryRequest.t) (w : World)
  (p : Promise DataQueryResponse.t) :
  fst (query options w) = ReturnPromise p -> only_emits isConsoleError p.
Proof.
  intros Hresult.
  destruct (query_returned options w) as (Hnone & first & rest & Htargets).
  { intros e He. rewrite Hresult in He. discriminate He. }
  destruct options as [targets range]. cbn [DataQueryRequest.targets] in Htargets.
  subst targets. rewrite (query_cons first rest range w Hnone) in Hresult.
  destruct (strict_eq_str _ "quote"); [discriminate|].
  cbn [fst] in Hresult. injection Hresult as <-.
  apply Promise_then_only_logs, Promise_all_only_logs.
  apply (mapState_Forall (only_emits isConsoleError) (targetPromise range) (first :: rest)).
  intros target w'. apply targetPromise_only_logs.
Qed.

End Routing.

(** ** The fetchers, the probe and the REST pipeline *)

Section Fetchers.
Context `{Runtime} `{Imports} `{BackendSrv}.

(** A transport failure of [get] is logged and re-thrown. *)
Lemma get_rejects (dataType : option string) (params : QueryParams.t) (e : Thrown)
  (w : World) :
  backendSrv_get (resourceUrl (this w) dataType) (withToken (this w) params) = Rejected e ->
  settle (get dataType params) w
  = (Rejected e,
     {| this := this w; fresh := fresh w;
        trace := trace w
                 ++ [HttpGet (resourceUrl (this w) dataType) (withToken (this w) params);
                     ConsoleError "Error retrieving data" e] |}).
Proof.
  intros Hfail. unfold settle. unfold bind at 1. rewrite get_spec, Hfail.
  unfold bind, emit, ret. cbn [this fresh trace]. rewrite <- app_assoc. reflexivity.
Qed.

Lemma get_fulfils (dataType : option string) (params : QueryParams.t) (v : jsval)
  (w : World) :
  backendSrv_get (resourceUrl (this w) dataType) (withToken (this w) params) = Fulfilled v ->
  settle (get dataType params) w
  = (Fulfilled v,
     {| this := this w; fresh := fresh w;
        trace := trace w
                 ++ [HttpGet (resourceUrl (this w) dataType) (withToken (this w) params)] |}).
Proof.
  intros Hok. unfold settle, bind. rewrite get_spec, Hok. reflexivity.
Qed.

(** A transport failure of [freeTextQuery] is logged and swallowed: the
    promise fulfils with [undefined]. *)
Lemma freeTextQuery_swallows (text : string) (e : Thrown) (w : World) :
  backendSrv_get (freeTextUrl (this w) text) None = Rejected e ->
  settle (freeTextQuery text) w
  = (Fulfilled JUndefined,
     {| this := this w; fresh := fresh w;
        trace := trace w
                 ++ [HttpGet (freeTextUrl (this w) text) None;
                     ConsoleError "Error retrieving data" e] |}).
Proof.
  intros Hfail. unfold settle. unfold bind at 1. rewrite freeTextQuery_spec, Hfail.
  unfold bind, emit, ret. cbn [this fresh trace]. rewrite <- app_assoc. reflexivity.
Qed.

(** The normalization callback throws on an absent response. *)
Lemma normalize_undefined (type : SelectableValue.t) :
  normalize type JUndefined = Rejected TypeError.
Proof. reflexivity. Qed.

Lemma targetPromise_structured (range : TimeRange.t) (target : MyQuery.t) (w : World) :
  falsy_text (MyQuery.queryText (spread defaultQuery target)) = true ->
  targetPromise range target w
  = (Promise_then
       (fst (get (SelectableValue.value (spread_type defaultQuery target))
               (constructQuery (spread defaultQuery target) range) w))
       (normalize (spread_type defaultQuery target)),
     snd (get (SelectableValue.value (spread_type defaultQuery target))
            (constructQuery (spread defaultQuery target) range) w)).
Proof.
  intros Hfalsy. unfold targetPromise, bind.
  destruct (MyQuery.queryText (spread defaultQuery target)) as [text|]; simpl in Hfalsy.
  - rewrite Hfalsy. destruct (get _ _ w). reflexivity.
  - destruct (get _ _ w). reflexivity.
Qed.

Lemma targetPromise_freeText (range : TimeRange.t) (target : MyQuery.t) (text : string)
  (w : World) :
  MyQuery.queryText (spread defaultQuery target) = Some text -> text <> "" ->
  targetPromise range target w
  = (Promise_then (fst (freeTextQuery text w)) (normalize (spread_type defaultQuery target)),
     snd (freeTextQuery text w)).
Proof.
  intros Htext Hne. unfold targetPromise, bind. rewrite Htext.
  destruct (String.eqb_spec text "") as [->|_]; [contradiction|].
  destruct (freeTextQuery text w). reflexivity.
Qed.

(** [Promise.all] rejects as soon as one of its promises always rejects. *)
Lemma Promise_all_rejected {A : Type} (ps : list (Promise A)) (p : Promise A) :
  In p ps -> (forall w, exists e, fst (p w) = Rejected e) ->
  forall w, exists e, fst (Promise_all ps w) = Rejected e.
Proof.
  intros Hin Hp. induction ps as [|q ps IH]; [destruct Hin|].
  intros w. simpl. unfold bind, ret.
  destruct (q w) as [o w1] eqn:Hq.
  destruct Hin as [->|Hin].
  - destruct (Hp w) as [e He]. rewrite Hq in He. simpl in He. subst o.
    destruct (Promise_all ps w1) as [os w2]. exists e. reflexivity.
  - destruct (IH Hin w1) as [e He].
    destruct (Promise_all ps w1) as [os w2]. simpl in He. subst os.
    destruct o as [a|e']; [exists e | exists e']; reflexivity.
Qed.

Lemma Promise_then_rejected {A B : Type} (p : Promise A) (cb : A -> Outcome B) :
  (forall w, exists e, fst (p w) = Rejected e) ->
  forall w, exists e, fst (Promise_then p cb w) = Rejected e.
Proof.
  intros Hp w. unfold Promise_then, bind, ret.
  destruct (Hp w) as [e He]. destruct (p w) as [o w1]. simpl in He. subst o.
  exists e. reflexivity.
Qed.

Lemma mapState_In {A B : Type} (ok : Event -> bool) (f : A -> State B) (l : list A)
  (x : A) (w : World) :
  (forall y, only_emits ok (f y)) -> In x l ->
  exists w', this w' = this w /\ In (fst (f x w')) (fst (mapState f l w)).
Proof.
  intros Hf. revert w. induction l as [|y l IH]; intros w Hin; [destruct Hin|].
  rewrite mapState_cons. cbn [fst]. destruct Hin as [->|Hin].
  - exists w. split; [reflexivity | left; reflexivity].
  - destruct (IH (snd (f y w)) Hin) as (w' & Hthis & Hin').
    exists w'. split; [|right; exact Hin'].
    rewrite Hthis. apply (Hf y w).
Qed.

(** The promise of a structured target whose request fails at the
    transport rejects with the transport's reason, whenever it settles. *)
Lemma targetPromise_structured_rejects (range : TimeRange.t) (target : MyQuery.t)
  (e : Thrown) (w : World) :
  falsy_text (MyQuery.queryText (spread defaultQuery target)) = true ->
  backendSrv_get (resourceUrl (this w) (SelectableValue.value (spread_type defaultQuery target)))
                 (withToken (this w) (constructQuery (spread defaultQuery target) range))
  = Rejected e ->
  forall w', fst (fst (targetPromise range target w) w') = Rejected e.
Proof.
  intros Hfalsy Hfail w'. rewrite (targetPromise_structured range target w Hfalsy).
  cbn [fst]. rewrite get_spec. cbn [fst]. rewrite Hfail. reflexivity.
Qed.

(** The promise of a free-text target whose request fails at the transport
    rejects with a [TypeError]: the callback reads [metric] of [undefined]. *)
Lemma targetPromise_freeText_rejects (range : TimeRange.t) (target : MyQuery.t)
  (text : string) (e : Thrown) (w : World) :
  MyQuery.queryText (spread defaultQuery target) = Some text -> text <> "" ->
  backendSrv_get (freeTextUrl (this w) text) None = Rejected e ->
  forall w', fst (fst (targetPromise range target w) w') = Rejected TypeError.
Proof.
  intros Htext Hne Hfail w'. rewrite (targetPromise_freeText range target text w Htext Hne).
  cbn [fst]. rewrite freeTextQuery_spec. cbn [fst]. rewrite Hfail. reflexivity.
Qed.

(** A non-streaming batch one of whose per-target promises always rejects
    is rejected as a whole. *)
Lemma batch_rejected (options : DataQueryRequest.t) (w : World) (target : MyQuery.t)
  (p : Promise DataQueryResponse.t) :
  fst (query options w) = ReturnPromise p ->
  In target (DataQueryRequest.targets options) ->
  (forall w1, this w1 = this w ->
     forall w', exists e,
       fst (fst (targetPromise (DataQueryRequest.range options) target w1) w') = Rejected e) ->
  forall w', exists e, fst (p w') = Rejected e.
Proof.
  intros Hresult Hin Hrejects.
  destruct (query_returned options w) as (Hnone & first & rest & Htargets).
  { intros e He. rewrite Hresult in He. discriminate He. }
  destruct options as [targets range].
  cbn [DataQueryRequest.targets DataQueryRequest.range] in *. subst targets.
  rewrite (query_cons first rest range w Hnone) in Hresult.
  destruct (strict_eq_str _ "quote"); [discriminate|].
  cbn [fst] in Hresult. injection Hresult as <-.
  apply Promise_then_rejected.
  destruct (mapState_In isHttpGet (targetPromise range) (first :: rest) target
              w (targetPromise_only_requests range) Hin)
    as (w1 & Hthis & Hpromise).
  apply (Promise_all_rejected _ _ Hpromise).
  apply Hrejects. exact Hthis.
Qed.

End Fetchers.

Lemma string_append_assoc (a b c : string) :
  ((a ++ b) ++ c = a ++ (b ++ c))%string.
Proof. induction a as [|x a IH]; simpl; [reflexivity | rewrite IH; reflexivity]. Qed.

Section Pipeline.
Context `{Runtime} `{Imports} `{BackendSrv}.

(** The two fetchers on a transport failure. A failure of a structured
    request is logged and re-thrown by [get], so its promise rejects with
    the transport's reason, and a batch that contains such a target is
    rejected; a failure of a free-text request is logged and swallowed by
    [freeTextQuery], whose promise fulfils with [undefined]. *)
Theorem transport_failure_asymmetry :
  (forall w dataType params e,
      backendSrv_get (resourceUrl (this w) dataType) (withToken (this w) params)
      = Rejected e ->
      settle (get dataType params) w
      = (Rejected e,
         {| this := this w; fresh := fresh w;
            trace := trace w
                     ++ [HttpGet (resourceUrl (this w) dataType) (withToken (this w) params);
                         ConsoleError "Error retrieving data" e] |}))
  /\ (forall options w target e p,
        fst (query options w) = ReturnPromise p ->
        In target (DataQueryRequest.targets options) ->
        falsy_text (MyQuery.queryText (spread defaultQuery target)) = true ->
        backendSrv_get
          (resourceUrl (this w) (SelectableValue.value (spread_type defaultQuery target)))
          (withToken (this w)
             (constructQuery (spread defaultQuery target) (DataQueryRequest.range options)))
        = Rejected e ->
        forall w', exists e', fst (p w') = Rejected e')
  /\ (forall w text e,
        backendSrv_get (freeTextUrl (this w) text) None = Rejected e ->
        settle (freeTextQuery text) w
        = (Fulfilled JUndefined,
           {| this := this w; fresh := fresh w;
              trace := trace w
                       ++ [HttpGet (freeTextUrl (this w) text) None;
                           ConsoleError "Error retrieving data" e] |})).
Proof.
  split; [|split].
  - intros w dataType params e. apply get_rejects.
  - intros options w target e p Hresult Hin Hfalsy Hfail.
    apply (batch_rejected options w target p Hresult Hin).
    intros w1 Hthis w'. exists e.
    apply targetPromise_structured_rejects; [exact Hfalsy|].
    rewrite Hthis. exact Hfail.
  - intros w text e. apply freeTextQuery_swallows.
Qed.

(** What follows the swallowed failure. A batch that contains a free-text
    target whose request fails at the transport is rejected all the same:
    the failure reaches the normalization callback as [undefined], and
    reading its [metric] throws a [TypeError]. *)
Theorem free_text_failure_rejects_batch
  (options : DataQueryRequest.t) (w : World) (target : MyQuery.t) (text : string)
  (e : Thrown) (p : Promise DataQueryResponse.t) :
  fst (query options w) = ReturnPromise p ->
  In target (DataQueryRequest.targets options) ->
  MyQuery.queryText (spread defaultQuery target) = Some text -> text <> "" ->
  backendSrv_get (freeTextUrl (this w) text) None = Rejected e ->
  (forall w1 w', this w1 = this w ->
     fst (fst (targetPromise (DataQueryRequest.range options) target w1) w')
     = Rejected TypeError)
  /\ forall w', exists e', fst (p w') = Rejected e'.
Proof.
  intros Hresult Hin Htext Hne Hfail.
  assert (Htarget : forall w1 w', this w1 = this w ->
            fst (fst (targetPromise (DataQueryRequest.range options) target w1) w')
            = Rejected TypeError).
  { intros w1 w' Hthis.
    apply (targetPromise_freeText_rejects _ target text e w1 Htext Hne).
    rewrite Hthis. exact Hfail. }
  split; [exact Htarget|].
  apply (batch_rejected options w target p Hresult Hin).
  intros w1 Hthis w'. exists TypeError. apply Htarget. exact Hthis.
Qed.

(** C5, as amended. For a target with a free-text override, the promise of
    the target settles as the normalization of the response (of [undefined]
    when the transport failed), and the shape of a normalized result is
    decided by [getTargetType] on the target's kind alone: a Table exactly
    when the kind is classified Table, the kind's time-series otherwise. *)
Theorem free_text_shape_follows_kind
  (range : TimeRange.t) (target : MyQuery.t) (text : string) (w : World) :
  MyQuery.queryText (spread defaultQuery target) = Some text -> text <> "" ->
  fst (settle (targetPromise range target) w)
  = normalize (spread_type defaultQuery target)
      (match backendSrv_get (freeTextUrl (this w) text) None with
       | Fulfilled data => data
       | Rejected _ => JUndefined
       end)
  /\ forall data result,
       normalize (spread_type defaultQuery target) data = Fulfilled result ->
       isTableResult result
       = TargetType_eqb (getTargetType (spread_type defaultQuery target)) Table.
Proof.
  intros Htext Hne. split.
  - unfold settle. unfold bind at 1.
    rewrite (targetPromise_freeText range target text w Htext Hne).
    rewrite freeTextQuery_spec. cbn [fst snd].
    destruct (backendSrv_get _ None) as [data|e]; reflexivity.
  - intros data result. unfold normalize, of_option.
    destruct (get_prop data "metric") as [metric|]; [|discriminate]. simpl.
    destruct (TargetType_eqb _ Table).
    + destruct (tableResponse _); [|discriminate]. intros [= <-]. reflexivity.
    + destruct (tsResponse _ _); [|discriminate]. intros [= <-]. reflexivity.
Qed.

(** C10. The outcome of the probe: a transport failure of the profile
    request for AAPL rejects the probe with the transport's reason; a
    response without properties ([undefined], [null]) rejects it with a
    [TypeError]; any other response answers success when its [status] is
    200 and error otherwise. So the error status is answered only for a
    request that resolved with a response whose [status] differs from 200. *)
Theorem testDatasource_outcome (w : World) :
  fst (settle testDatasource w)
  = match backendSrv_get (resourceUrl (this w) (Some "profile"))
            (withToken (this w) probeParams) with
    | Rejected e => Rejected e
    | Fulfilled resp =>
        match get_prop resp "status" with
        | None => Rejected TypeError
        | Some status =>
            Fulfilled {| TestResult.status :=
                           if strict_eq_num status 200 then "success" else "error" |}
        end
    end
  /\ (fst (settle testDatasource w) = Fulfilled {| TestResult.status := "error" |}
      <-> exists resp status,
            backendSrv_get (resourceUrl (this w) (Some "profile"))
              (withToken (this w) probeParams) = Fulfilled resp
            /\ get_prop resp "status" = Some status
            /\ strict_eq_num status 200 = false)
  /\ resourceUrl (this w) (Some "profile")
     = (DataSource.baseUrl (this w) ++ "/stock/profile")%string
  /\ QueryParams.symbol probeParams = Some "AAPL".
Proof.
  assert (Houtcome :
    fst (settle testDatasource w)
    = match backendSrv_get (resourceUrl (this w) (Some "profile"))
              (withToken (this w) probeParams) with
      | Rejected e => Rejected e
      | Fulfilled resp =>
          match get_prop resp "status" with
          | None => Rejected TypeError
          | Some status =>
              Fulfilled {| TestResult.status :=
                             if strict_eq_num status 200 then "success" else "error" |}
          end
      end).
  { unfold settle, testDatasource. unfold bind at 1 2. rewrite get_spec.
    cbn [fst snd]. unfold ret at 1.
    destruct (backendSrv_get _ _) as [resp|e]; [|reflexivity].
    unfold Promise_then, bind, ret. cbn [fst].
    destruct (get_prop resp "status") as [status|]; [|reflexivity].
    destruct (strict_eq_num status 200); reflexivity. }
  split; [exact Houtcome|]. split; [|split].
  - rewrite Houtcome. split.
    + destruct (backendSrv_get _ _) as [resp|e]; [|discriminate].
      destruct (get_prop resp "status") as [status|] eqn:Hstatus; [|discriminate].
      destruct (strict_eq_num status 200) eqn:Hok; [discriminate|].
      intros _. exists resp, status. auto.
    + intros (resp & status & -> & -> & ->). reflexivity.
  - unfold resourceUrl. simpl. rewrite string_append_assoc. reflexivity.
  - reflexivity.
Qed.

(** For every target, the [refId] of the request is the object wrapping the
    target, never the target's refId. *)
Lemma constructQuery_refId_wraps_target (target : MyQuery.t) (range : TimeRange.t) :
  QueryParams.refId (constructQuery target range) = Some (RefIdObject target)
  /\ QueryParams.refId (constructQuery target range)
     <> Some (RefIdString (MyQuery.refId target)).
Proof.
  rewrite constructQuery_refId. split; [reflexivity | discriminate].
Qed.

(** A handler keeps the captured query and the frame's tag, and every
    emission it makes carries the tag of the captured query. *)
Lemma handle_tagged (sub : Subscription.t) (ev : SocketEvent) (w : World) :
  Frame.refId (Subscription.frame sub) = QueryParams.refId (Subscription.query sub) ->
  Subscription.query (fst (handle sub ev w)) = Subscription.query sub
  /\ Frame.refId (Subscription.frame (fst (handle sub ev w)))
     = QueryParams.refId (Subscription.query sub)
  /\ exists evs,
       trace (snd (handle sub ev w)) = trace w ++ evs
       /\ Forall (tagged_with (QueryParams.refId (Subscription.query sub))) evs.
Proof.
  intros Htag. unfold handle.
  destruct ev as [| error | | data].
  - simpl. repeat split; [exact Htag|]. eexists. split; [reflexivity|].
    repeat constructor.
  - simpl. repeat split; [exact Htag|]. eexists. split; [reflexivity|].
    repeat constructor.
  - destruct (Subscription.stopped sub); simpl.
    + repeat split; [exact Htag|]. exists []. rewrite app_nil_r. split; constructor.
    + repeat split; [exact Htag|]. eexists. split; [reflexivity|]. repeat constructor.
  - destruct (readTrade data) as [[[t p]|]|e]; simpl.
    + destruct (Subscription.stopped sub); simpl.
      * repeat split; [exact Htag|]. exists []. rewrite app_nil_r. split; constructor.
      * repeat split; [exact Htag|]. eexists. split; [reflexivity|].
        constructor; [|constructor]. simpl. split; [reflexivity|].
        constructor; [exact Htag | constructor].
    + repeat split; [exact Htag|]. exists []. rewrite app_nil_r. split; constructor.
    + repeat split; [exact Htag|]. eexists. split; [reflexivity|]. repeat constructor.
Qed.

(** Every frame and every emission of the subscription of a target carries
    the object wrapping the merged target as its tag, whatever the socket
    receives. *)
Lemma stream_emissions_tagged (range : TimeRange.t) (target : MyQuery.t)
  (evs : list SocketEvent) (w : World) :
  exists emitted,
    trace (snd (run (fst (subscribe (targetObservable range target) w)) evs
                  (snd (subscribe (targetObservable range target) w))))
    = trace (snd (subscribe (targetObservable range target) w)) ++ emitted
    /\ Forall (tagged_with (Some (RefIdObject (spread defaultQuery target)))) emitted.
Proof.
  rewrite subscribe_spec. cbn [fst snd].
  set (sub := {| Subscription.socket := fresh w; Subscription.frame := _;
                 Subscription.query := _; Subscription.stopped := false |}).
  assert (Hquery : QueryParams.refId (Subscription.query sub)
                   = Some (RefIdObject (spread defaultQuery target))).
  { unfold sub, targetObservable. simpl. apply constructQuery_refId. }
  assert (Htag : Frame.refId (Subscription.frame sub)
                 = QueryParams.refId (Subscription.query sub)) by reflexivity.
  rewrite <- Hquery. clearbody sub.
  generalize {| this := DataSource.push (fresh w) (this w); fresh := S (fresh w);
                trace := trace w ++ [SocketNew (fresh w) (DataSource.websocketUrl (this w))] |}.
  clear Hquery. revert sub Htag.
  induction evs as [|ev evs IH]; intros sub Htag w0.
  - exists []. simpl. rewrite app_nil_r. split; constructor.
  - simpl. unfold bind.
    destruct (handle_tagged sub ev w0 Htag) as (Hq & Hf & emitted & Htrace & Hok).
    destruct (handle sub ev w0) as [sub' w1]. cbn [fst snd] in *.
    destruct (IH sub' ltac:(rewrite Hq; exact Hf) w1) as (emitted' & Htrace' & Hok').
    exists (emitted ++ emitted'). split.
    + rewrite Htrace', Htrace, app_assoc. reflexivity.
    + apply Forall_app. split; [exact Hok|]. rewrite <- Hq. exact Hok'.
Qed.

End Pipeline.

(** ** The claims at concrete inputs *)

(** C1 at a streaming target with refId A and symbol TSLA: the request, the
    frame and the emission for one trade all carry the object wrapping the
    target, not the string A. *)
Lemma refId_not_echoed_example :
  QueryParams.refId (@constructQuery exampleRuntime streamTarget exampleRange)
  = Some (RefIdObject streamTarget)
  /\ QueryParams.refId (@constructQuery exampleRuntime streamTarget exampleRange)
     <> Some (RefIdString (MyQuery.refId streamTarget))
  /\ trace (snd (@streamQuery exampleRuntime specImports (constBackend (Rejected networkDown))
                   {| DataQueryRequest.targets := [streamTarget];
                      DataQueryRequest.range := exampleRange |}
                   [OnOpen; OnMessage "tick"] world0))
     = [ SocketNew 0 "wss://ws.finnhub.io?token=TOKEN";
         SocketSend 0 (JObj [("type", JStr "subscribe"); ("symbol", JStr "TSLA")]);
         SubscriberNext 0
           {| Emission.data :=
                [ {| Frame.refId := Some (RefIdObject (spread exampleDefaults streamTarget));
                     Frame.fields := [("ts", "time"); ("value", "number")];
                     Frame.capacity := 1000;
                     Frame.values := [(JNum 1690000000, JNum 250.5)] |} ];
              Emission.key := Some (RefIdObject (spread exampleDefaults streamTarget)) |} ].
Proof.
  split; [reflexivity|]. split; [discriminate|]. vm_compute. reflexivity.
Qed.

(** C3 on the instance left by a streaming batch of two targets, which
    holds the two sockets of that batch: close-all throws an
    [InvalidAccessError] on the first socket, so no socket is closed, the
    next [query] throws before it routes its batch, and the list still holds
    both sockets. *)
Lemma close_all_throws_example :
  DataSource.sockets (this world2) = [0; 1]
  /\ closeSockets world2 = (Some InvalidAccessError, world2)
  /\ @query exampleRuntime specImports (constBackend (Rejected networkDown))
       {| DataQueryRequest.targets := [streamTarget];
          DataQueryRequest.range := exampleRange |} world2
     = (Threw InvalidAccessError, world2)
  /\ trace world2
     = [ SocketNew 0 "wss://ws.finnhub.io?token=TOKEN";
         SocketNew 1 "wss://ws.finnhub.io?token=TOKEN" ].
Proof. repeat split. Qed.

(** C4 at a batch of one free-text target over a transport that is down:
    the request is issued, the failure is logged, and the batch is rejected
    with a [TypeError]. *)
Lemma free_text_failure_example :
  @awaitQuery exampleRuntime specImports (constBackend (Rejected networkDown))
    {| DataQueryRequest.targets := [freeTextCandleTarget];
       DataQueryRequest.range := exampleRange |} world0
  = (Some (Rejected TypeError),
     {| this := this world0; fresh := 0;
        trace := [ HttpGet "https://finnhub.io/api/v1/stock/candle?symbol=AAPL&resolution=D&token=TOKEN"
                     None;
                   ConsoleError "Error retrieving data" networkDown ] |}).
Proof. vm_compute. reflexivity. Qed.

(** The two fetchers over a transport that is down: [get] rejects, the
    batch of one structured candle target is rejected, and [freeTextQuery]
    fulfils with [undefined]. *)
Lemma transport_failure_asymmetry_witness :
  fst (settle (@get (constBackend (Rejected networkDown)) (Some "candle")
                 (@constructQuery exampleRuntime candleTarget exampleRange)) world0)
  = Rejected networkDown
  /\ (exists p,
        fst (@query exampleRuntime specImports (constBackend (Rejected networkDown))
               {| DataQueryRequest.targets := [candleTarget];
                  DataQueryRequest.range := exampleRange |} world0)
        = ReturnPromise p
        /\ exists e, fst (p world0) = Rejected e)
  /\ fst (settle (@freeTextQuery (constBackend (Rejected networkDown))
                    "stock/candle?symbol=AAPL&resolution=D") world0)
     = Fulfilled JUndefined.
Proof.
  destruct (@transport_failure_asymmetry exampleRuntime specImports
              (constBackend (Rejected networkDown)))
    as (Hget & Hbatch & Hfree).
  split; [|split].
  - rewrite (Hget world0 (Some "candle") (@constructQuery exampleRuntime candleTarget exampleRange)
               networkDown eq_refl).
    reflexivity.
  - eexists. split; [reflexivity|].
    exact (Hbatch {| DataQueryRequest.targets := [candleTarget];
                     DataQueryRequest.range := exampleRange |}
             world0 candleTarget networkDown _ eq_refl (or_introl eq_refl)
             eq_refl eq_refl world0).
  - rewrite (Hfree world0 "stock/candle?symbol=AAPL&resolution=D" networkDown eq_refl).
    reflexivity.
Defined.

Lemma freeTextCandle_text_nonempty : "stock/candle?symbol=AAPL&resolution=D" <> "".
Proof. discriminate. Qed.

Lemma freeTextMetric_text_nonempty : "stock/metric?symbol=AAPL&metric=price" <> "".
Proof. discriminate. Qed.

(** Over a transport that is down, the batch of one free-text target is
    rejected. *)
Lemma free_text_failure_rejects_batch_witness :
  exists p,
    fst (@query exampleRuntime specImports (constBackend (Rejected networkDown))
           {| DataQueryRequest.targets := [freeTextCandleTarget];
              DataQueryRequest.range := exampleRange |} world0)
    = ReturnPromise p
    /\ exists e, fst (p world0) = Rejected e.
Proof.
  eexists. split; [reflexivity|].
  exact (proj2 (@free_text_failure_rejects_batch exampleRuntime specImports
                  (constBackend (Rejected networkDown))
                  {| DataQueryRequest.targets := [freeTextCandleTarget];
                     DataQueryRequest.range := exampleRange |}
                  world0 freeTextCandleTarget "stock/candle?symbol=AAPL&resolution=D"
                  networkDown _ eq_refl (or_introl eq_refl) eq_refl
                  freeTextCandle_text_nonempty eq_refl) world0).
Defined.

(** C5 at a free-text target of metric kind: the response's [metric]
    envelope is unwrapped and normalized as a Table. *)
Lemma free_text_shape_follows_kind_witness :
  fst (settle (@targetPromise exampleRuntime specImports
                 (constBackend (Fulfilled metricPayload)) exampleRange freeTextMetricTarget)
         world0)
  = Fulfilled (NTable (TableOf [ {| Column.text := "beta"; Column.type := "number" |};
                                 {| Column.text := "currency"; Column.type := "string" |} ]
                               [[JNum 1.25; JStr "USD"]])).
Proof.
  destruct (@free_text_shape_follows_kind exampleRuntime specImports
              (constBackend (Fulfilled metricPayload)) exampleRange freeTextMetricTarget
              "stock/metric?symbol=AAPL&metric=price" world0 eq_refl
              freeTextMetric_text_nonempty) as (Houtcome & _).
  exact Houtcome.
Defined.

(** C5 as stated fails at a free-text target of candle kind: its free-text
    override is present, and its normalized result is the two candle series,
    not a Table. *)
Lemma free_text_candle_counterexample :
  MyQuery.queryText freeTextCandleTarget = Some "stock/candle?symbol=AAPL&resolution=D"
  /\ fst (settle (@targetPromise exampleRuntime specImports
                    (constBackend (Fulfilled candlePayload)) exampleRange freeTextCandleTarget)
            world0)
     = Fulfilled (NSeries
         [ {| TimeSeries.target := "open price";
              TimeSeries.datapoints := [(JNum 10, 100000%float); (JNum 11, 200000%float)] |};
           {| TimeSeries.target := "close price";
              TimeSeries.datapoints := [(JNum 12, 100000%float); (JNum 13, 200000%float)] |} ])
  /\ ~ exists table,
         fst (settle (@targetPromise exampleRuntime specImports
                        (constBackend (Fulfilled candlePayload)) exampleRange
                        freeTextCandleTarget) world0)
         = Fulfilled (NTable table).
Proof.
  split; [reflexivity|].
  assert (Houtcome :
    fst (settle (@targetPromise exampleRuntime specImports
                   (constBackend (Fulfilled candlePayload)) exampleRange freeTextCandleTarget)
           world0)
    = Fulfilled (NSeries
        [ {| TimeSeries.target := "open price";
             TimeSeries.datapoints := [(JNum 10, 100000%float); (JNum 11, 200000%float)] |};
          {| TimeSeries.target := "close price";
             TimeSeries.datapoints := [(JNum 12, 100000%float); (JNum 13, 200000%float)] |} ]))
    by (vm_compute; reflexivity).
  split; [exact Houtcome|].
  intros [table Htable]. rewrite Houtcome in Htable. discriminate Htable.
Qed.

(** * Further properties *)

(** ** The request builder: which fields a request has *)

Lemma strict_eq_str_true (v : option string) (s : string) :
  strict_eq_str v s = true <-> v = Some s.
Proof.
  destruct v as [x|]; simpl.
  - rewrite String.eqb_eq. split; [intros ->; reflexivity | intros [= ->]; reflexivity].
  - split; discriminate.
Qed.

(** A request has [from] and [to] exactly when the target is of candle
    kind; only a candle request has a [resolution] and only a metric request
    a [metric]; and the range is ignored for every other kind. *)
Theorem constructQuery_fields `{Runtime} (target : MyQuery.t) (range range' : TimeRange.t) :
  (is_Some (QueryParams.from (constructQuery target range))
   <-> MyQuery.type target ≫= SelectableValue.value = Some "candle")
  /\ (is_Some (QueryParams.to (constructQuery target range))
      <-> MyQuery.type target ≫= SelectableValue.value = Some "candle")
  /\ (is_Some (QueryParams.resolution (constructQuery target range))
      -> MyQuery.type target ≫= SelectableValue.value = Some "candle")
  /\ (is_Some (QueryParams.metric (constructQuery target range))
      -> MyQuery.type target ≫= SelectableValue.value = Some "metric")
  /\ (MyQuery.type target ≫= SelectableValue.value <> Some "candle"
      -> constructQuery target range = constructQuery target range').
Proof.
  unfold constructQuery.
  destruct (strict_eq_str _ "candle") eqn:Hcandle.
  - apply strict_eq_str_true in Hcandle. rewrite Hcandle. simpl.
    repeat split; eauto; try (intros; exfalso; congruence); intros [? [=]].
  - assert (Hne : MyQuery.type target ≫= SelectableValue.value <> Some "candle").
    { intros Heq. apply strict_eq_str_true in Heq. congruence. }
    destruct (strict_eq_str _ "metric") eqn:Hmetric.
    + apply strict_eq_str_true in Hmetric. simpl.
      repeat split; try (intros [? [=]]); try (intros; exfalso; congruence); auto.
    + simpl. repeat split; try (intros [? [=]]); try (intros; exfalso; congruence); auto.
Qed.

(** ** The table normalizer *)

Lemma Object_entries_None (v : jsval) : Object_entries v = None <-> isNullish v = true.
Proof. destruct v; simpl; split; intros Hx; try discriminate Hx; reflexivity. Qed.

Lemma Object_values_None (v : jsval) : Object_values v = None <-> isNullish v = true.
Proof.
  destruct v; simpl; split; intros Hx; try discriminate Hx; reflexivity.
Qed.

Lemma mapM_Object_values_None (data : list jsval) :
  mapM Object_values data = None <-> Exists (fun d => isNullish d = true) data.
Proof.
  induction data as [|d data IH]; simpl.
  - split; [discriminate | intros Hex; inversion Hex].
  - destruct (Object_values d) as [row|] eqn:Hrow; simpl.
    + destruct (mapM Object_values data) as [rows|]; simpl.
      * split; [discriminate|]. intros Hex. inversion Hex as [? ? Hd | ? ? Hrest]; subst.
        -- apply Object_values_None in Hd. congruence.
        -- apply IH in Hrest. discriminate.
      * split; [|reflexivity]. intros _. right. apply IH. reflexivity.
    + split; [|reflexivity]. intros _. left. apply Object_values_None. exact Hrow.
Qed.

(** [tableResponse] throws exactly when the payload holds an entry that is
    [undefined] or [null]; the empty payload yields the empty object. *)
Theorem tableResponse_throws_iff (data : list jsval) :
  (tableResponse data = None <-> Exists (fun d => isNullish d = true) data)
  /\ tableResponse [] = Some EmptyObject.
Proof.
  split; [|reflexivity].
  destruct data as [|d0 rest].
  - simpl. split; [discriminate | intros Hex; inversion Hex].
  - unfold tableResponse.
    rewrite <- (mapM_Object_values_None (d0 :: rest)).
    destruct (Object_entries d0) as [entries|] eqn:Hentries.
    + destruct (mapM Object_values (d0 :: rest)); cbn [mbind option_bind];
        split; congruence.
    + cbn [mbind option_bind]. split; [|reflexivity]. intros _.
      apply mapM_Object_values_None. left. apply Object_entries_None. exact Hentries.
Qed.

Lemma mapM_Object_values_objects (points : list (list (string * jsval))) :
  mapM Object_values (map JObj points) = Some (map (map snd) points).
Proof.
  induction points as [|p points IH]; simpl; [reflexivity|].
  rewrite IH. reflexivity.
Qed.

(** For a non-empty payload of objects, the columns are the keys of the
    first object, typed string for a string value and number for anything
    else, and there is one row per object holding that object's own values,
    in payload order; so the payload of the one object with a = 1 and
    b = x yields the columns a (number) and b (string) and the row (1, x). *)
Theorem tableResponse_objects
  (point : list (string * jsval)) (points : list (list (string * jsval))) :
  tableResponse (map JObj (point :: points))
  = Some (TableOf
            (map (fun kv => {| Column.text := fst kv;
                               Column.type := if typeof_is_string (snd kv)
                                              then "string" else "number" |}) point)
            (map (map snd) (point :: points)))
  /\ tableResponse [JObj [("a", JNum 1); ("b", JStr "x")]]
     = Some (TableOf [ {| Column.text := "a"; Column.type := "number" |};
                       {| Column.text := "b"; Column.type := "string" |} ]
                     [[JNum 1; JStr "x"]]).
Proof.
  split; [|reflexivity].
  unfold tableResponse. change (map JObj (point :: points)) with (JObj point :: map JObj points).
  change (Object_entries (JObj point)) with (Some point). simpl mbind.
  change (JObj point :: map JObj points) with (map JObj (point :: points)).
  rewrite mapM_Object_values_objects. simpl.
  do 2 f_equal. apply map_ext. intros [key val]. reflexivity.
Qed.

(** ** The time-series normalizer: the other kinds and the edges *)

(** For a quote payload that is an object, [tsResponse] yields the single
    series current price with the one sample ([c], [t] * 1000); a missing
    [t] gives the timestamp NaN, not an error. It throws on [undefined]
    and [null]. *)
Theorem tsResponse_quote `{Runtime} (props : list (string * jsval)) :
  tsResponse (JObj props) (Some "quote")
  = Some [ {| TimeSeries.target := "current price";
              TimeSeries.datapoints :=
                [ (or_undefined (assoc "c" props),
                   PrimFloat.mul (ToNumber (or_undefined (assoc "t" props))) 1000) ] |} ]
  /\ (assoc "t" props = None ->
      tsResponse (JObj props) (Some "quote")
      = Some [ {| TimeSeries.target := "current price";
                  TimeSeries.datapoints :=
                    [ (or_undefined (assoc "c" props), PrimFloat.nan) ] |} ])
  /\ tsResponse JUndefined (Some "quote") = None
  /\ tsResponse JNull (Some "quote") = None.
Proof.
  split; [reflexivity|]. split; [|split; reflexivity].
  intros Ht. unfold tsResponse. simpl. rewrite Ht. reflexivity.
Qed.

(** An earnings payload whose first element is missing, [undefined] or
    [null] (the empty list among them) makes [tsResponse] throw. *)
Theorem tsResponse_earnings_empty `{Runtime} (data : jsval) :
  (forall d0, get_index data 0 = Some d0 -> isNullish d0 = true) ->
  tsResponse data (Some "earnings") = None.
Proof.
  intros Hfirst. unfold tsResponse.
  change (strict_eq_str (Some "earnings") "earnings") with true. cbv iota.
  destruct (get_index data 0) as [d0|] eqn:Hd0; [|reflexivity].
  specialize (Hfirst d0 eq_refl). simpl.
  destruct d0; try discriminate; reflexivity.
Qed.

(** A candle payload whose [t] is not an array (Finnhub's answer when it
    has no data) makes [tsResponse] throw. *)
Theorem tsResponse_candle_without_times `{Runtime} (data : jsval) :
  (forall times, get_prop data "t" <> Some (JArr times)) ->
  tsResponse data (Some "candle") = None.
Proof.
  intros Htimes. unfold tsResponse.
  change (strict_eq_str (Some "candle") "earnings") with false.
  change (strict_eq_str (Some "candle") "quote") with false.
  change (strict_eq_str (Some "candle") "candle") with true. cbv iota.
  change (mapM ?f ["open price"; "close price"])
    with (y ← f "open price"; k ← (z ← f "close price"; Some [z]); Some (y :: k)).
  cbv beta.
  destruct (get_prop data "t") as [t|] eqn:Ht; [|reflexivity].
  destruct t; try reflexivity. exfalso. apply (Htimes elems). reflexivity.
Qed.

(** ** The REST path as a whole *)

Lemma get_prop_not_nullish (v : jsval) (k : string) :
  isNullish v = false -> exists x, get_prop v k = Some x.
Proof.
  destruct v; simpl; try discriminate; intros _; eauto.
  - destruct (String.eqb k "length"); eauto.
  - destruct (String.eqb k "length"); eauto.
Qed.

Lemma joinOutcomes_Fulfilled {A : Type} (os : list (Outcome A)) (l : list A) :
  joinOutcomes os = Fulfilled l <-> os = map Fulfilled l.
Proof.
  revert l. induction os as [|o os IH]; intros l; simpl.
  - split.
    + intros [= <-]. reflexivity.
    + destruct l; [reflexivity | discriminate].
  - destruct o as [a|e].
    + destruct (joinOutcomes os) as [l'|e'] eqn:Hjoin.
      * split.
        -- intros [= <-]. simpl. f_equal. apply IH. reflexivity.
        -- destruct l as [|b l]; [discriminate|]. simpl. intros [= -> Hos].
           apply IH in Hos. congruence.
      * split; [discriminate|].
        destruct l as [|b l]; [discriminate|]. simpl. intros [= -> Hos].
        apply IH in Hos. discriminate.
    + split; [discriminate|]. destruct l; discriminate.
Qed.

Lemma Promise_all_join {A : Type} (ps : list (Promise A)) (os : list (Outcome A)) :
  Forall2 (fun p o => forall w, fst (p w) = o) ps os ->
  forall w, fst (Promise_all ps w) = joinOutcomes os.
Proof.
  induction 1 as [|p o ps os Hp _ IH]; intros w; simpl; [reflexivity|].
  unfold bind, ret. specialize (Hp w). destruct (p w) as [o' w1]. simpl in Hp. subst o'.
  specialize (IH w1). destruct (Promise_all ps w1) as [os' w2]. simpl in IH. subst os'.
  reflexivity.
Qed.

Section RestPath.
Context `{Runtime} `{Imports} `{BackendSrv}.

Lemma targetPromise_spec (range : TimeRange.t) (target : MyQuery.t) (w : World) :
  snd (targetPromise range target w)
  = {| this := this w; fresh := fresh w;
       trace := trace w ++ [issuedRequest (this w) range target] |}
  /\ forall w', fst (fst (targetPromise range target w) w') = targetOutcome (this w) range target.
Proof.
  unfold targetPromise, issuedRequest, targetOutcome, fetched, bind.
  destruct (MyQuery.queryText (spread defaultQuery target)) as [text|].
  - destruct (String.eqb text "").
    + rewrite get_spec. cbn [fst snd ret]. split; [reflexivity|]. intros w'.
      unfold Promise_then, bind, ret.
      destruct (backendSrv_get _ _) as [v|e]; reflexivity.
    + rewrite freeTextQuery_spec. cbn [fst snd ret]. split; [reflexivity|]. intros w'.
      unfold Promise_then, bind, ret.
      destruct (backendSrv_get _ None) as [v|e]; reflexivity.
  - rewrite get_spec. cbn [fst snd ret]. split; [reflexivity|]. intros w'.
    unfold Promise_then, bind, ret.
    destruct (backendSrv_get _ _) as [v|e]; reflexivity.
Qed.

Lemma mapState_targetPromise (range : TimeRange.t) (targets : list MyQuery.t) (w : World) :
  snd (mapState (targetPromise range) targets w)
  = {| this := this w; fresh := fresh w;
       trace := trace w ++ map (issuedRequest (this w) range) targets |}
  /\ Forall2 (fun p o => forall w', fst (p w') = o)
       (fst (mapState (targetPromise range) targets w))
       (map (targetOutcome (this w) range) targets).
Proof.
  revert w. induction targets as [|target targets IH]; intros w.
  - simpl. rewrite app_nil_r, world_eta. split; [reflexivity | constructor].
  - rewrite mapState_cons. cbn [fst snd].
    destruct (targetPromise_spec range target w) as (Hworld & Houtcome).
    rewrite Hworld. specialize (IH {| this := this w; fresh := fresh w;
                                      trace := trace w ++ [issuedRequest (this w) range target] |}).
    cbn [this fresh trace] in IH. destruct IH as (Hworld' & Houtcomes).
    split.
    + rewrite Hworld'. rewrite <- app_assoc. reflexivity.
    + simpl map. constructor; [exact Houtcome | exact Houtcomes].
Qed.


(** The promise of a REST batch settles as the join of the targets'
    outcomes, whatever the world it settles in. *)
Lemma query_promise_outcome (options : DataQueryRequest.t) (w w' : World)
  (p : Promise DataQueryResponse.t) :
  fst (query options w) = ReturnPromise p ->
  fst (p w')
  = match joinOutcomes (map (targetOutcome (this w) (DataQueryRequest.range options))
                            (DataQueryRequest.targets options)) with
    | Fulfilled results => Fulfilled {| DataQueryResponse.data := flat results |}
    | Rejected e => Rejected e
    end.
Proof.
  intros Hresult.
  destruct (query_returned options w) as (Hnone & first & rest & Htargets).
  { intros e He. rewrite Hresult in He. discriminate He. }
  destruct options as [targets range].
  cbn [DataQueryRequest.targets DataQueryRequest.range] in *. subst targets.
  rewrite (query_cons first rest range w Hnone) in Hresult.
  destruct (strict_eq_str _ "quote"); [discriminate|].
  cbn [fst] in Hresult. injection Hresult as <-.
  destruct (mapState_targetPromise range (first :: rest) w) as (_ & Houtcomes).
  unfold Promise_then, bind, ret.
  pose proof (Promise_all_join _ _ Houtcomes w') as Hjoin.
  destruct (Promise_all _ w') as [o w1]. cbn [fst] in *. rewrite Hjoin.
  destruct (joinOutcomes _); reflexivity.
Qed.

(** C2, as amended. For every non-empty batch that [query] gets to route
    (no socket is held, so close-all does not throw), the whole batch goes
    to the streaming path exactly when the type tag of the first target, as
    given, is quote, and to the REST path otherwise. On the streaming path
    no request is issued and subscribing the returned observable opens one
    socket per target of the batch, in order, each for the request built
    from its own target, whatever the kinds of the later targets. On the
    REST path one request per target of the batch is issued, in order,
    whatever the kinds of the later targets, no socket is ever opened, and
    the returned promise joins the outcomes of all targets. *)
Theorem query_routes_by_first_target
  (first : MyQuery.t) (rest : list MyQuery.t) (range : TimeRange.t) (w : World) :
  DataSource.sockets (this w) = [] ->
  ((exists merged,
       fst (query {| DataQueryRequest.targets := first :: rest;
                     DataQueryRequest.range := range |} w) = ReturnObservable merged)
   <-> MyQuery.type first ≫= SelectableValue.value = Some "quote")
  /\ ((exists p,
         fst (query {| DataQueryRequest.targets := first :: rest;
                       DataQueryRequest.range := range |} w) = ReturnPromise p)
      <-> MyQuery.type first ≫= SelectableValue.value <> Some "quote")
  /\ match fst (query {| DataQueryRequest.targets := first :: rest;
                         DataQueryRequest.range := range |} w) with
     | ReturnObservable merged =>
         snd (query {| DataQueryRequest.targets := first :: rest;
                       DataQueryRequest.range := range |} w) = w
         /\ map Subscription.query (fst (subscribeMerged merged w))
            = map (fun target => constructQuery (spread defaultQuery target) range)
                  (first :: rest)
         /\ trace (snd (subscribeMerged merged w))
            = trace w
              ++ map (fun socket => SocketNew socket (DataSource.websocketUrl (this w)))
                     (seq (fresh w) (length (first :: rest)))
     | ReturnPromise p =>
         trace (snd (query {| DataQueryRequest.targets := first :: rest;
                              DataQueryRequest.range := range |} w))
         = trace w ++ map (issuedRequest (this w) range) (first :: rest)
         /\ only_emits isConsoleError p
         /\ forall w',
              fst (p w')
              = match joinOutcomes (map (targetOutcome (this w) range) (first :: rest)) with
                | Fulfilled results => Fulfilled {| DataQueryResponse.data := flat results |}
                | Rejected e => Rejected e
                end
     | Threw _ => False
     end.
Proof.
  intros Hnone.
  pose proof (query_cons first rest range w Hnone) as Hquery.
  destruct (strict_eq_str (MyQuery.type first ≫= SelectableValue.value) "quote") eqn:Hquote.
  - assert (Hkind : MyQuery.type first ≫= SelectableValue.value = Some "quote")
      by (apply strict_eq_str_true; exact Hquote).
    rewrite Hquery. cbn [fst snd]. split; [|split].
    + split; [intros _; exact Hkind | intros _; eauto].
    + split; [intros [p Hp]; discriminate Hp | intros Hne; contradiction].
    + destruct (subscribeMerged_spec (map (targetObservable range) (first :: rest)) w)
        as (_ & Htrace & _ & Hqueries & Hids).
      split; [reflexivity|]. split.
      * rewrite Hqueries, map_map. reflexivity.
      * rewrite Htrace.
        rewrite <- (map_map Subscription.socket
                      (fun socket => SocketNew socket (DataSource.websocketUrl (this w)))).
        rewrite Hids, length_map. reflexivity.
  - assert (Hkind : MyQuery.type first ≫= SelectableValue.value <> Some "quote").
    { intros Heq. apply strict_eq_str_true in Heq. congruence. }
    pose proof (query_promise_only_logs
                  {| DataQueryRequest.targets := first :: rest;
                     DataQueryRequest.range := range |} w) as Hlogs.
    pose proof (fun w' => query_promise_outcome
                  {| DataQueryRequest.targets := first :: rest;
                     DataQueryRequest.range := range |} w w') as Houtcome.
    rewrite Hquery in *. cbn [fst snd] in *. split; [|split].
    + split; [intros [merged Hm]; discriminate Hm | intros Heq; contradiction].
    + split; [intros _; exact Hkind | intros _; eauto].
    + destruct (mapState_targetPromise range (first :: rest) w) as (Hworld & _).
      rewrite Hworld. split; [reflexivity|]. split.
      * apply Hlogs. reflexivity.
      * intros w'. apply Houtcome. reflexivity.
Qed.

(** How a REST batch settles: the promise [query] returns rejects with the
    first rejection among the targets' outcomes, in target order, and
    otherwise fulfils with the normalized results concatenated in target
    order; so it fulfils exactly when every target's outcome does. *)
Theorem query_batch_outcome (options : DataQueryRequest.t) (w w' : World)
  (p : Promise DataQueryResponse.t) :
  fst (query options w) = ReturnPromise p ->
  fst (p w')
  = match joinOutcomes (map (targetOutcome (this w) (DataQueryRequest.range options))
                            (DataQueryRequest.targets options)) with
    | Fulfilled results => Fulfilled {| DataQueryResponse.data := flat results |}
    | Rejected e => Rejected e
    end
  /\ forall response,
       fst (p w') = Fulfilled response
       <-> exists results,
             map (targetOutcome (this w) (DataQueryRequest.range options))
                 (DataQueryRequest.targets options)
             = map Fulfilled results
             /\ response = {| DataQueryResponse.data := flat results |}.
Proof.
  intros Hresult.
  pose proof (query_promise_outcome options w w' p Hresult) as Houtcome.
  split; [exact Houtcome|].
  intros response. rewrite Houtcome.
  destruct (joinOutcomes _) as [results|e] eqn:Hjoin.
  - apply joinOutcomes_Fulfilled in Hjoin. split.
    + intros [= <-]. exists results. split; [exact Hjoin | reflexivity].
    + intros (results' & Hmap & ->). rewrite Hjoin in Hmap.
      assert (results = results').
      { clear -Hmap. revert results' Hmap.
        induction results as [|r results IH]; intros [|r' results']; simpl;
          try discriminate; [reflexivity|].
        intros [= -> Hrest]. f_equal. apply IH. exact Hrest. }
      subst. reflexivity.
  - split; [discriminate|].
    intros (results & Hmap & _). apply joinOutcomes_Fulfilled in Hmap. congruence.
Qed.

(** A response that wraps its payload in a [metric] envelope is normalized
    as the payload itself would be. *)
Theorem normalize_unwraps_metric (type : SelectableValue.t)
  (props : list (string * jsval)) (payload inner : jsval) :
  assoc "metric" props = Some payload -> truthy payload = true ->
  get_prop payload "metric" = Some inner -> truthy inner = false ->
  normalize type (JObj props) = normalize type payload.
Proof.
  intros Hmetric Htruthy Hinner Hfalsy. unfold normalize. simpl get_prop.
  rewrite Hmetric, Hinner. simpl. rewrite Htruthy, Hfalsy. reflexivity.
Qed.

(** A response for a kind that is classified as a time-series but is none
    of earnings, quote and candle is discarded: whatever it holds, the
    target's result is the empty list of series. *)
Theorem normalize_discards_unknown_kind (type : SelectableValue.t) (data : jsval) :
  getTargetType type = Timeseries ->
  strict_eq_str (SelectableValue.value type) "earnings" = false ->
  strict_eq_str (SelectableValue.value type) "quote" = false ->
  strict_eq_str (SelectableValue.value type) "candle" = false ->
  isNullish data = false ->
  normalize type data = Fulfilled (NSeries []).
Proof.
  intros Hclass Hearnings Hquote Hcandle Hdata. unfold normalize. rewrite Hclass.
  destruct (get_prop_not_nullish data "metric" Hdata) as [metric ->]. simpl.
  unfold tsResponse. rewrite Hearnings, Hquote, Hcandle. reflexivity.
Qed.

(** A response without usable data fails the target: for a kind classified
    as a time-series, an earnings response that is the empty list, and a
    candle response whose [t] is not an array, both make the normalization
    throw a [TypeError]. *)
Theorem normalize_rejects_empty_responses (type : SelectableValue.t)
  (props : list (string * jsval)) :
  getTargetType type = Timeseries ->
  (SelectableValue.value type = Some "earnings" ->
   normalize type (JArr []) = Rejected TypeError)
  /\ (SelectableValue.value type = Some "candle" ->
      assoc "metric" props = None -> assoc "t" props = None ->
      normalize type (JObj props) = Rejected TypeError).
Proof.
  intros Hclass. split.
  - intros Hkind. unfold normalize. rewrite Hclass, Hkind. reflexivity.
  - intros Hkind Hmetric Ht. unfold normalize. rewrite Hclass, Hkind.
    simpl get_prop. rewrite Hmetric. simpl.
    rewrite tsResponse_candle_without_times; [reflexivity|].
    intros times. simpl. rewrite Ht. discriminate.
Qed.

End RestPath.

(** C2 at a batch whose first target is tagged quote and whose second is a
    candle target, on a fresh instance: the batch is streamed as a whole, and
    subscribing opens a socket for each of the two targets. *)
Lemma query_routes_by_first_target_witness :
  exists merged,
    fst (@query exampleRuntime specImports (constBackend (Rejected networkDown))
           {| DataQueryRequest.targets := [streamTarget; candleTarget];
              DataQueryRequest.range := exampleRange |} world0)
    = ReturnObservable merged
    /\ trace (snd (subscribeMerged merged world0))
       = [ SocketNew 0 "wss://ws.finnhub.io?token=TOKEN";
           SocketNew 1 "wss://ws.finnhub.io?token=TOKEN" ].
Proof.
  destruct (@query_routes_by_first_target exampleRuntime specImports
              (constBackend (Rejected networkDown))
              streamTarget [candleTarget] exampleRange world0 eq_refl)
    as (_ & _ & Hpath).
  eexists. split; [reflexivity|].
  destruct Hpath as (_ & _ & Htrace). exact Htrace.
Defined.

(** C2 as stated fails at a batch whose first target is of the kind named
    quote-stream: it is not streamed but sent through the REST path, as a
    request for the resource quote-stream. *)
Lemma query_routes_by_first_target_counterexample :
  MyQuery.type quoteStreamTarget ≫= SelectableValue.value = Some "quote-stream"
  /\ (exists p,
        fst (@query exampleRuntime specImports (constBackend (Rejected networkDown))
               {| DataQueryRequest.targets := [quoteStreamTarget];
                  DataQueryRequest.range := exampleRange |} world0)
        = ReturnPromise p)
  /\ (~ exists merged,
          fst (@query exampleRuntime specImports (constBackend (Rejected networkDown))
                 {| DataQueryRequest.targets := [quoteStreamTarget];
                    DataQueryRequest.range := exampleRange |} world0)
          = ReturnObservable merged)
  /\ trace (snd (@query exampleRuntime specImports (constBackend (Rejected networkDown))
                   {| DataQueryRequest.targets := [quoteStreamTarget];
                      DataQueryRequest.range := exampleRange |} world0))
     = [ HttpGet "https://finnhub.io/api/v1/stock/quote-stream"
           (withToken (this world0)
              (@constructQuery exampleRuntime (spread exampleDefaults quoteStreamTarget)
                 exampleRange)) ].
Proof.
  split; [reflexivity|]. split; [eexists; reflexivity|]. split; [|reflexivity].
  intros [merged Hmerged]. discriminate Hmerged.
Qed.

(** ** A streaming subscription over its lifetime *)

(** Appending a row to a window of the newest [c] rows and cutting it back
    to [c] rows gives the window of the extended list. *)
Lemma drop_window {A : Type} (rows : list A) (row : A) (c : nat) :
  drop (length (drop (length rows - c) rows ++ [row]) - c)
       (drop (length rows - c) rows ++ [row])
  = drop (length (rows ++ [row]) - c) (rows ++ [row]).
Proof.
  rewrite !length_app, length_drop. simpl.
  destruct (le_lt_dec (length rows) c) as [Hle|Hgt].
  - replace (length rows - c) with 0 by lia. rewrite drop_0.
    replace (length rows - 0 + 1 - c) with (length rows + 1 - c) by lia. reflexivity.
  - replace (length rows - (length rows - c) + 1 - c) with 1 by lia.
    destruct c as [|c].
    + rewrite Nat.sub_0_r, (drop_ge rows) by lia. simpl.
      rewrite drop_ge by (rewrite length_app; simpl; lia). reflexivity.
    + rewrite !drop_app_le by (rewrite ?length_drop; lia).
      rewrite drop_drop. f_equal. f_equal. lia.
Qed.

Section Streaming.
Context `{Runtime} `{Imports} `{BackendSrv}.

(** A handler keeps the socket and the capacity of the frame; the frame
    holds the newest rows of the trades seen so far. *)
Lemma handle_window (sub : Subscription.t) (ev : SocketEvent) (w : World)
  (seen : list (jsval * jsval)) :
  Frame.values (Subscription.frame sub)
  = drop (length seen - Frame.capacity (Subscription.frame sub)) seen ->
  Frame.capacity (Subscription.frame (fst (handle sub ev w)))
  = Frame.capacity (Subscription.frame sub)
  /\ Frame.values (Subscription.frame (fst (handle sub ev w)))
     = drop (length (seen ++ tradesOf [ev]) - Frame.capacity (Subscription.frame sub))
            (seen ++ tradesOf [ev]).
Proof.
  intros Hwindow. unfold handle.
  destruct ev as [| error | | data]; simpl.
  - rewrite app_nil_r. split; [reflexivity | exact Hwindow].
  - rewrite app_nil_r. split; [reflexivity | exact Hwindow].
  - rewrite app_nil_r. destruct (Subscription.stopped sub); simpl;
      (split; [reflexivity | exact Hwindow]).
  - destruct (readTrade data) as [[[t p]|]|e]; simpl.
    + destruct (Subscription.stopped sub); simpl;
        (split; [reflexivity|]; rewrite Hwindow; apply drop_window).
    + rewrite app_nil_r. split; [reflexivity | exact Hwindow].
    + rewrite app_nil_r. split; [reflexivity | exact Hwindow].
Qed.

Lemma tradesOf_cons (ev : SocketEvent) (evs : list SocketEvent) :
  tradesOf (ev :: evs) = tradesOf [ev] ++ tradesOf evs.
Proof.
  destruct ev as [| error | | data]; simpl; try reflexivity.
  destruct (readTrade data) as [[row|]|e]; reflexivity.
Qed.

Lemma run_window (sub : Subscription.t) (evs : list SocketEvent) (w : World)
  (seen : list (jsval * jsval)) :
  Frame.values (Subscription.frame sub)
  = drop (length seen - Frame.capacity (Subscription.frame sub)) seen ->
  Frame.values (Subscription.frame (fst (run sub evs w)))
  = drop (length (seen ++ tradesOf evs) - Frame.capacity (Subscription.frame sub))
         (seen ++ tradesOf evs).
Proof.
  revert sub w seen. induction evs as [|ev evs IH]; intros sub w seen Hwindow.
  - simpl. rewrite app_nil_r. exact Hwindow.
  - simpl run. unfold bind.
    destruct (handle_window sub ev w seen Hwindow) as (Hcap & Hvalues).
    destruct (handle sub ev w) as [sub' w1]. cbn [fst] in *.
    rewrite <- Hcap in Hvalues. rewrite (IH sub' w1 _ Hvalues), Hcap.
    rewrite (tradesOf_cons ev evs), <- !List.app_assoc. reflexivity.
Qed.

(** The rolling buffer. Whatever a socket receives, the frame of its
    subscription holds exactly the newest 1000 trades received, oldest
    first, and so never more than 1000 rows. *)
Theorem frame_holds_newest_trades (o : Observable.t) (evs : list SocketEvent) (w : World) :
  Frame.values (Subscription.frame (fst (run (fst (subscribe o w)) evs (snd (subscribe o w)))))
  = drop (length (tradesOf evs) - 1000) (tradesOf evs)
  /\ length (Frame.values
               (Subscription.frame (fst (run (fst (subscribe o w)) evs (snd (subscribe o w))))))
     <= 1000.
Proof.
  assert (Hvalues :
    Frame.values (Subscription.frame (fst (run (fst (subscribe o w)) evs (snd (subscribe o w)))))
    = drop (length (tradesOf evs) - 1000) (tradesOf evs)).
  { rewrite subscribe_spec. cbn [fst snd].
    rewrite (run_window _ evs _ []) by reflexivity. reflexivity. }
  split; [exact Hvalues|]. rewrite Hvalues, length_drop. lia.
Qed.

(** Only a trade or a close changes a subscription: opening, a transport
    error, a message that is not a trade and a message that cannot be read
    leave it as it was and reach the subscriber with nothing. *)
Theorem handle_non_fatal (sub : Subscription.t) (ev : SocketEvent) (w : World) :
  ev <> OnClose -> tradesOf [ev] = [] ->
  fst (handle sub ev w) = sub
  /\ exists emitted,
       trace (snd (handle sub ev w)) = trace w ++ emitted
       /\ forallb (fun e => negb (isSubscriberEvent e)) emitted = true
       /\ this (snd (handle sub ev w)) = this w.
Proof.
  intros Hclose Htrades. unfold handle.
  destruct ev as [| error | | data]; try contradiction; simpl.
  - split; [reflexivity|]. eexists. repeat split; reflexivity.
  - split; [reflexivity|]. eexists. repeat split; reflexivity.
  - simpl in Htrades. destruct (readTrade data) as [[row|]|e]; [discriminate| |]; simpl.
    + split; [reflexivity|]. exists []. rewrite app_nil_r. repeat split; reflexivity.
    + split; [reflexivity|]. eexists. repeat split; reflexivity.
Qed.

Lemma handle_stopped (sub : Subscription.t) (ev : SocketEvent) (w : World) :
  Subscription.stopped sub = true ->
  Subscription.stopped (fst (handle sub ev w)) = true
  /\ Subscription.socket (fst (handle sub ev w)) = Subscription.socket sub
  /\ exists emitted,
       trace (snd (handle sub ev w)) = trace w ++ emitted
       /\ forallb (fun e => negb (isSubscriberEvent e)) emitted = true.
Proof.
  intros Hstopped. unfold handle.
  destruct ev as [| error | | data]; simpl.
  - repeat split; [exact Hstopped|]. eexists. split; reflexivity.
  - repeat split; [exact Hstopped|]. eexists. split; reflexivity.
  - rewrite Hstopped. simpl. repeat split; [exact Hstopped|].
    exists []. rewrite app_nil_r. split; reflexivity.
  - destruct (readTrade data) as [[[t p]|]|e]; simpl.
    + rewrite Hstopped. simpl. repeat split.
      exists []. rewrite app_nil_r. split; reflexivity.
    + repeat split; [exact Hstopped|]. exists []. rewrite app_nil_r. split; reflexivity.
    + repeat split; [exact Hstopped|]. eexists. split; reflexivity.
Qed.

Lemma run_stopped (sub : Subscription.t) (evs : list SocketEvent) (w : World) :
  Subscription.stopped sub = true ->
  exists emitted,
    trace (snd (run sub evs w)) = trace w ++ emitted
    /\ forallb (fun e => negb (isSubscriberEvent e)) emitted = true.
Proof.
  revert sub w. induction evs as [|ev evs IH]; intros sub w Hstopped.
  - exists []. simpl. rewrite app_nil_r. split; reflexivity.
  - simpl run. unfold bind.
    destruct (handle_stopped sub ev w Hstopped) as (Hstopped' & _ & emitted & Htrace & Hok).
    destruct (handle sub ev w) as [sub' w1]. cbn [fst snd] in *.
    destruct (IH sub' w1 Hstopped') as (emitted' & Htrace' & Hok').
    exists (emitted ++ emitted'). split.
    + rewrite Htrace', Htrace, app_assoc. reflexivity.
    + rewrite forallb_app, Hok, Hok'. reflexivity.
Qed.

(** Closing completes a subscription once and for all: the close of a live
    subscription completes its subscriber, and whatever the socket receives
    afterwards (trades and further closes included) reaches the subscriber
    with nothing. *)
Theorem close_completes_once (sub : Subscription.t) (evs : list SocketEvent) (w : World) :
  Subscription.stopped sub = false ->
  exists emitted,
    trace (snd (run sub (OnClose :: evs) w))
    = trace w ++ SubscriberComplete (Subscription.socket sub) :: emitted
    /\ forallb (fun e => negb (isSubscriberEvent e)) emitted = true.
Proof.
  intros Hlive. simpl run. unfold bind, handle. rewrite Hlive.
  cbn [bind emit ret fst snd].
  unfold bind, emit, ret. cbn [fst snd].
  destruct (run_stopped
              {| Subscription.socket := Subscription.socket sub;
                 Subscription.frame := Subscription.frame sub;
                 Subscription.query := Subscription.query sub;
                 Subscription.stopped := true |} evs
              {| this := this w; fresh := fresh w;
                 trace := trace w ++ [SubscriberComplete (Subscription.socket sub)] |}
              eq_refl) as (emitted & Htrace & Hok).
  exists emitted. split; [|exact Hok].
  rewrite Htrace. cbn [trace]. rewrite <- app_assoc. reflexivity.
Qed.

(** The handshake. When the socket of a target's subscription opens, the
    one message sent on it subscribes to the symbol of the default-merged
    target in upper case (to [undefined] when neither the target nor the
    defaults have a symbol). *)
Theorem open_sends_subscribe (range : TimeRange.t) (target : MyQuery.t) (w w' : World) :
  snd (handle (fst (subscribe (targetObservable range target) w)) OnOpen w')
  = {| this := this w'; fresh := fresh w';
       trace := trace w'
                ++ [SocketSend (fresh w)
                      (JObj [("type", JStr "subscribe");
                             ("symbol",
                              or_undefined
                                (JStr <$> (toUpperCase
                                             <$> or_else (MyQuery.symbol target)
                                                         (Defaults.symbol defaultQuery))))])] |}.
Proof.
  rewrite subscribe_spec. cbn [fst]. unfold handle, targetObservable.
  cbn [Subscription.socket Subscription.query Observable.query].
  rewrite constructQuery_symbol. reflexivity.
Qed.

(** No cancellation across batches. Once a streaming batch was queried and
    its observable subscribed, the instance holds the sockets of the batch,
    and the next [query], whatever its batch, throws the
    [InvalidAccessError] of close-all: it closes none of them, issues no
    request and opens no socket. *)
Theorem next_query_after_stream_throws
  (options next : DataQueryRequest.t) (w : World) (merged : list Observable.t) :
  fst (query options w) = ReturnObservable merged ->
  DataSource.sockets (this (snd (subscribeMerged merged (snd (query options w)))))
  = seq (fresh w) (length (DataQueryRequest.targets options))
  /\ DataQueryRequest.targets options <> []
  /\ query next (snd (subscribeMerged merged (snd (query options w))))
     = (Threw InvalidAccessError, snd (subscribeMerged merged (snd (query options w)))).
Proof.
  intros Hresult.
  destruct (query_streaming options w merged Hresult) as (-> & Hworld & Hnone & Htargets).
  destruct (subscribeMerged_spec
              (map (targetObservable (DataQueryRequest.range options))
                   (DataQueryRequest.targets options))
              (snd (query options w))) as (Hsockets & _ & _ & _ & Hids).
  rewrite Hworld in *. rewrite Hnone, Hids, length_map in Hsockets. simpl in Hsockets.
  split; [exact Hsockets|]. split; [exact Htargets|].
  apply query_held. rewrite Hsockets.
  destruct (DataQueryRequest.targets options); [contradiction | discriminate].
Qed.

End Streaming.

(** ** The further properties at concrete inputs *)

(** The empty earnings list makes [tsResponse] throw. *)
Lemma tsResponse_earnings_empty_witness :
  @tsResponse exampleRuntime (JArr []) (Some "earnings") = None.
Proof.
  apply (@tsResponse_earnings_empty exampleRuntime (JArr [])).
  intros d0 Hd0. injection Hd0 as <-. reflexivity.
Defined.

(** Finnhub's no-data answer to a candle query makes [tsResponse] throw. *)
Lemma tsResponse_candle_without_times_witness :
  @tsResponse exampleRuntime noDataPayload (Some "candle") = None.
Proof.
  apply (@tsResponse_candle_without_times exampleRuntime noDataPayload).
  intros times Htimes. discriminate Htimes.
Defined.

(** A batch of one structured candle target whose request succeeds fulfils
    with the two candle series. *)
Lemma query_batch_outcome_witness :
  exists p,
    fst (@query exampleRuntime specImports (constBackend (Fulfilled candlePayload))
           {| DataQueryRequest.targets := [candleTarget];
              DataQueryRequest.range := exampleRange |} world0)
    = ReturnPromise p
    /\ fst (p world0)
       = Fulfilled
           {| DataQueryResponse.data :=
                [ ItemSeries
                    {| TimeSeries.target := "open price";
                       TimeSeries.datapoints :=
                         [(JNum 10, 100000%float); (JNum 11, 200000%float)] |};
                  ItemSeries
                    {| TimeSeries.target := "close price";
                       TimeSeries.datapoints :=
                         [(JNum 12, 100000%float); (JNum 13, 200000%float)] |} ] |}.
Proof.
  eexists. split; [reflexivity|].
  exact (proj1 (@query_batch_outcome exampleRuntime specImports
                  (constBackend (Fulfilled candlePayload))
                  {| DataQueryRequest.targets := [candleTarget];
                     DataQueryRequest.range := exampleRange |}
                  world0 world0 _ eq_refl)).
Defined.

(** The metric response of the examples is normalized as its envelope's
    payload. *)
Lemma normalize_unwraps_metric_witness :
  @normalize exampleRuntime specImports
    {| SelectableValue.value := Some "metric"; SelectableValue.label := None |} metricPayload
  = @normalize exampleRuntime specImports
      {| SelectableValue.value := Some "metric"; SelectableValue.label := None |}
      (JObj [("beta", JNum 1.25); ("currency", JStr "USD")]).
Proof.
  exact (@normalize_unwraps_metric exampleRuntime specImports
           {| SelectableValue.value := Some "metric"; SelectableValue.label := None |}
           [("metric", JObj [("beta", JNum 1.25); ("currency", JStr "USD")]);
            ("symbol", JStr "AAPL")]
           (JObj [("beta", JNum 1.25); ("currency", JStr "USD")]) JUndefined
           eq_refl eq_refl eq_refl eq_refl).
Defined.

(** With the classifier of the examples, a profile response is discarded. *)
Lemma normalize_discards_unknown_kind_witness :
  @normalize exampleRuntime specImports
    {| SelectableValue.value := Some "profile"; SelectableValue.label := None |}
    (JObj [("name", JStr "Apple Inc"); ("ticker", JStr "AAPL")])
  = Fulfilled (NSeries []).
Proof.
  exact (@normalize_discards_unknown_kind exampleRuntime specImports
           {| SelectableValue.value := Some "profile"; SelectableValue.label := None |}
           (JObj [("name", JStr "Apple Inc"); ("ticker", JStr "AAPL")])
           eq_refl eq_refl eq_refl eq_refl eq_refl).
Defined.

(** With the classifier of the examples, the empty earnings list fails the
    target. *)
Lemma normalize_rejects_empty_responses_witness :
  @normalize exampleRuntime specImports
    {| SelectableValue.value := Some "earnings"; SelectableValue.label := None |} (JArr [])
  = Rejected TypeError.
Proof.
  exact (proj1 (@normalize_rejects_empty_responses exampleRuntime specImports
                  {| SelectableValue.value := Some "earnings"; SelectableValue.label := None |}
                  [] eq_refl) eq_refl).
Defined.

Lemma OnMessage_is_not_OnClose (data : string) : OnMessage data <> OnClose.
Proof. discriminate. Qed.

(** A message the example runtime cannot parse leaves the subscription of
    the streaming target as it was. *)
Lemma handle_non_fatal_witness :
  fst (@handle exampleRuntime
         (fst (subscribe {| Observable.query := @constructQuery exampleRuntime streamTarget exampleRange |}
                 world0))
         (OnMessage "not json") world0)
  = fst (subscribe {| Observable.query := @constructQuery exampleRuntime streamTarget exampleRange |} world0).
Proof.
  exact (proj1 (@handle_non_fatal exampleRuntime
                  (fst (subscribe {| Observable.query :=
                                       @constructQuery exampleRuntime streamTarget exampleRange |} world0))
                  (OnMessage "not json") world0
                  (OnMessage_is_not_OnClose "not json") eq_refl)).
Defined.

(** The subscription of the streaming target, closed and then sent a trade:
    the subscriber is completed and receives nothing more. *)
Lemma close_completes_once_witness :
  exists emitted,
    trace (snd (@run exampleRuntime
                  (fst (subscribe {| Observable.query :=
                                       @constructQuery exampleRuntime streamTarget exampleRange |} world0))
                  [OnClose; OnMessage "tick"; OnClose] world0))
    = trace world0 ++ SubscriberComplete 0 :: emitted
    /\ forallb (fun e => negb (isSubscriberEvent e)) emitted = true.
Proof.
  exact (@close_completes_once exampleRuntime
           (fst (subscribe {| Observable.query := @constructQuery exampleRuntime streamTarget exampleRange |}
                   world0))
           [OnMessage "tick"; OnClose] world0 eq_refl).
Defined.

(** After the streaming batch of two targets, the instance holds sockets 0
    and 1 and the next [query] throws. *)
Lemma next_query_after_stream_throws_witness :
  DataSource.sockets (this world2) = [0; 1]
  /\ @query exampleRuntime specImports (constBackend (Rejected networkDown))
       {| DataQueryRequest.targets := [streamTarget];
          DataQueryRequest.range := exampleRange |} world2
     = (Threw InvalidAccessError, world2).
Proof.
  destruct (@next_query_after_stream_throws exampleRuntime specImports
              (constBackend (Rejected networkDown))
              {| DataQueryRequest.targets := [streamTarget; streamTarget];
                 DataQueryRequest.range := exampleRange |}
              {| DataQueryRequest.targets := [streamTarget];
                 DataQueryRequest.range := exampleRange |}
              world0 _ eq_refl) as (Hheld & _ & Hthrows).
  exact (conj Hheld Hthrows).
Defined.
